(** * The wagering ledger of bot.py

    A shallow embedding of the database-backed commands of [bot.py]
    ([join], [balance], [deposit], [bet], [win], [stats], [audit]) and of
    [generate_otp_secret] and [verify_otp], followed by the properties of
    the ledger. [monitor_tx], which reads a web page and neither reads nor
    writes the database, is left out.

    Modelling conventions.
    - The module-level SQLAlchemy session is an explicit value [Db]: the
      three tables [players], [games] and [game_players] as the session
      sees them, and the flag [session_failed]. A commit that the database
      refuses leaves the session failed; the code never calls
      [session.rollback()], so from then on the first query of every
      command raises [PendingRollbackError].
    - Every command is a function from a [Db] to a reply and a [Db]. A value
      assigned to an attribute before an exception stays in the session and
      is written with the next flush, so it stays in the tables of the
      model.
    - The [Float] columns and the [float] arguments are binary64 numbers,
      the primitive [float] of Rocq, with the rounding, the infinities and
      the NaN of IEEE 754. A [Float] column is nullable, and the database
      is taken to be SQLite, which keeps no NaN and no sign of a zero: a
      NaN written to a column is stored as NULL and read back as Python's
      [None], a zero is read back as 0.0, and arithmetic or comparison on
      [None] raises [TypeError]. The model stores a value the way the
      database does as soon as it is assigned.
    - A Python [str] is the list of its code points.
    - What the process receives from outside is an argument of the command:
      the bytes drawn by [secrets.token_hex], the outcome of the wallet RPC
      [sendtoaddress], the clock read for [created_at], and whether
      [ctx.send] delivered the message or raised.
    - A reply is the message delivered by [ctx.send], or the exception that
      left the command.
    - Commands run one after the other: every command body reaches its
      commit before its first [await], so the event loop never interleaves
      two bodies. *)

From Stdlib Require Import List Bool Arith PeanoNat NArith ZArith Lia.
From Stdlib Require Import String Ascii Permutation Sorted.
From Stdlib Require Import Floats.
From Stdlib.Strings Require Import Byte.
Import ListNotations.

(** ** Python strings *)

Definition str := list N.

(** A literal, for the examples: the code points of an ASCII string. *)
Definition lit (s : string) : str := map N_of_ascii (list_ascii_of_string s).

Fixpoint str_eqb (a b : str) : bool :=
  match a, b with
  | [], [] => true
  | x :: a', y :: b' => N.eqb x y && str_eqb a' b'
  | _, _ => false
  end.

(** [str.isascii()]: every code point is below 128. *)
Definition isascii (s : str) : bool := forallb (fun c => N.ltb c 128) s.

(** Lexicographic order on code points, the order of Python's [<] on [str]. *)
Fixpoint str_ltb (a b : str) : bool :=
  match a, b with
  | _, [] => false
  | [], _ :: _ => true
  | x :: a', y :: b' => N.ltb x y || (N.eqb x y && str_ltb a' b')
  end.

(** ** Exceptions and results *)

Inductive Exn : Type :=
| TypeError              (* compare_digest on a non-ASCII str; arithmetic on None *)
| IntegrityError         (* a commit refused by a primary key *)
| PendingRollbackError   (* a query on the session after a refused commit *)
| RpcError               (* an exception of the RPC proxy other than JSONRPCException *)
| SendError.             (* an exception of ctx.send *)

Inductive result (A : Type) : Type :=
| Ok (a : A)
| Raise (e : Exn).

Arguments Ok {A} a.
Arguments Raise {A} e.

(** ** Float columns *)

(** The value of a [Float] column: NULL or a number. *)
Definition column := option float.

(** What is read back after [x] was written to a column: SQLite stores a
    NaN as NULL and a zero without its sign. *)
Definition to_column (x : float) : column :=
  if PrimFloat.is_nan x then None
  else if PrimFloat.is_zero x then Some 0%float
  else Some x.

(** Python's [c + a], [c - a] and [c >= a] for an attribute [c]. *)
Definition py_add (c : column) (a : float) : result float :=
  match c with
  | Some x => Ok (x + a)%float
  | None => Raise TypeError
  end.

Definition py_sub (c : column) (a : float) : result float :=
  match c with
  | Some x => Ok (x - a)%float
  | None => Raise TypeError
  end.

Definition py_ge (c : column) (a : float) : result bool :=
  match c with
  | Some x => Ok (a <=? x)%float
  | None => Raise TypeError
  end.

(** The order of [ORDER BY] on a column: NULL sorts below every number. *)
Definition sql_key (c : column) : column :=
  match c with
  | Some x => to_column x
  | None => None
  end.

Definition sql_ltb (a b : column) : bool :=
  match sql_key a, sql_key b with
  | None, Some _ => true
  | Some x, Some y => (x <? y)%float
  | _, None => false
  end.

(** ** Secrets and the authorization check (bot.py 63-68) *)

Definition hexdigit (k : N) : N :=
  if N.ltb k 10 then (48 + k)%N else (87 + k)%N.

(** [binascii.hexlify] of the drawn bytes, decoded as ASCII. *)
Definition hexlify (bs : list byte) : str :=
  flat_map (fun b => [hexdigit (Byte.to_N b / 16); hexdigit (Byte.to_N b mod 16)]) bs.

(** [secrets.token_bytes(n)]: [entropy i] is the i-th byte that the
    operating system returns for this call. *)
Definition token_bytes (n : nat) (entropy : nat -> byte) : list byte :=
  map entropy (seq 0 n).

(** [secrets.token_hex(n)] *)
Definition token_hex (n : nat) (entropy : nat -> byte) : str :=
  hexlify (token_bytes n entropy).

Definition generate_otp_secret (entropy : nat -> byte) : str :=
  token_hex 16 entropy.

(** [hmac.compare_digest(a, b)] on two [str]: it raises [TypeError] when
    either argument has a non-ASCII character, and otherwise tells whether
    they are equal. *)
Definition compare_digest (a b : str) : result bool :=
  if isascii a && isascii b then Ok (str_eqb a b) else Raise TypeError.

Definition verify_otp (secret otp_code : str) : result bool :=
  compare_digest secret otp_code.

(** ** The tables (bot.py 38-56) *)

Module Player.
Record t : Type := mk
  { id : nat;            (* Integer, primary key *)
    discord_id : str;    (* String, unique *)
    balance : column;    (* Float, default 0.0 *)
    otp_secret : str }.  (* String, not null *)
End Player.

Module Game.
Record t : Type := mk
  { id : nat;            (* Integer, primary key *)
    pot : column;        (* Float, default 0.0 *)
    created_at : Z }.    (* DateTime, default utcnow *)
End Game.

Module GamePlayer.
Record t : Type := mk
  { game_id : nat;       (* primary key, with player_id *)
    player_id : nat;
    bet_amount : column }.  (* Float, default 0.0 *)
End GamePlayer.

Record Db : Type := mkDb
  { players : list Player.t;
    games : list Game.t;
    game_players : list GamePlayer.t;
    session_failed : bool }.

Definition empty_db : Db := mkDb [] [] [] false.

(** The session after a commit that the database refused. No command reads
    the tables of a failed session again; the model leaves them as the
    session saw them before the commit. *)
Definition fail_session (s : Db) : Db :=
  mkDb (players s) (games s) (game_players s) true.

(** An autoincremented integer primary key: one more than the greatest. *)
Definition next_id (ids : list nat) : nat := S (list_max ids).

(** [session.query(Player).filter_by(discord_id=player_id).first()] *)
Definition find_player (d : str) (s : Db) : option Player.t :=
  find (fun p => str_eqb (Player.discord_id p) d) (players s).

(** [session.query(Game).first()] *)
Definition first_game (s : Db) : option Game.t := hd_error (games s).

(** The UPDATE that a flush issues for a changed [player.balance]: the row
    is addressed by its primary key. *)
Definition set_balance (pid : nat) (b : column) (ps : list Player.t) : list Player.t :=
  map (fun p => if Nat.eqb (Player.id p) pid
                then Player.mk (Player.id p) (Player.discord_id p) b (Player.otp_secret p)
                else p) ps.

(** The UPDATE for a changed [game.pot]. *)
Definition set_pot (gid : nat) (v : column) (gs : list Game.t) : list Game.t :=
  map (fun g => if Nat.eqb (Game.id g) gid
                then Game.mk (Game.id g) v (Game.created_at g)
                else g) gs.

(** Whether [game_players] already holds the primary key (game_id, player_id). *)
Definition has_row (gid pid : nat) (rows : list GamePlayer.t) : bool :=
  existsb (fun r => Nat.eqb (GamePlayer.game_id r) gid
                    && Nat.eqb (GamePlayer.player_id r) pid) rows.

(** ** Replies and the outside world *)

(** The outcome of [bitcoin_rpc.sendtoaddress(address, amount)]. *)
Inductive RpcResult : Type :=
| RpcTxid (txid : str)
| RpcJSONRPCException (msg : str)
| RpcOtherException.

Inductive Reply : Type :=
| Joined (otp_secret : str)            (* "... has joined the game! Your OTP secret: ..." *)
| AlreadyJoined                        (* "... is already in the game." *)
| BalanceIs (b : column)               (* "Your balance is ... BTC." *)
| NeedJoin                             (* "You need to join the game first using !join" *)
| DepositOk (amount : float) (txid : str)  (* "Deposit successful! ..." *)
| TransactionFailed (msg : str)        (* "Transaction failed: ..." *)
| InvalidOtp                           (* "Invalid OTP code." *)
| BetOk (amount : float) (pot : column)    (* "... bet ... BTC. Current pot: ... BTC." *)
| InsufficientBalance                  (* "Insufficient balance." *)
| WinOk (new_balance : column)         (* "... wins the pot! Your new balance is ... BTC." *)
| NoActivePot                          (* "There is no active pot." *)
| TopPlayers (rows : list (str * column))   (* "Top Players: ..." *)
| AuditReport (rows : list (str * column))  (* "Audit Report: ..." *)
| Raised (e : Exn).                    (* the command raised *)

(** [await ctx.send(msg)]: the message is delivered, or the call raises. *)
Definition ctx_send (delivered : bool) (msg : Reply) : Reply :=
  if delivered then msg else Raised SendError.

(** ** The commands (bot.py 74-178) *)

Definition join (author : str) (entropy : nat -> byte) (delivered : bool) (s : Db)
    : Reply * Db :=
  if session_failed s then (Raised PendingRollbackError, s) else
  match find_player author s with
  | None =>
      let otp_secret := generate_otp_secret entropy in
      let new_player :=
        Player.mk (next_id (map Player.id (players s))) author (Some 0%float)
          otp_secret in
      (ctx_send delivered (Joined otp_secret),
       mkDb (players s ++ [new_player]) (games s) (game_players s) false)
  | Some _ => (ctx_send delivered AlreadyJoined, s)
  end.

Definition balance (author : str) (delivered : bool) (s : Db) : Reply * Db :=
  if session_failed s then (Raised PendingRollbackError, s) else
  match find_player author s with
  | Some player => (ctx_send delivered (BalanceIs (Player.balance player)), s)
  | None => (ctx_send delivered NeedJoin, s)
  end.

Definition deposit (author address : str) (amount : float) (otp_code : str)
    (rpc : RpcResult) (delivered : bool) (s : Db) : Reply * Db :=
  if session_failed s then (Raised PendingRollbackError, s) else
  match find_player author s with
  | Some player =>
      match verify_otp (Player.otp_secret player) otp_code with
      | Raise e => (Raised e, s)
      | Ok true =>
          match rpc with
          | RpcTxid txid =>
              match py_add (Player.balance player) amount with
              | Raise e => (Raised e, s)
              | Ok new_balance =>
                  (ctx_send delivered (DepositOk amount txid),
                   mkDb (set_balance (Player.id player) (to_column new_balance)
                           (players s))
                        (games s) (game_players s) false)
              end
          | RpcJSONRPCException msg => (ctx_send delivered (TransactionFailed msg), s)
          | RpcOtherException => (Raised RpcError, s)
          end
      | Ok false => (ctx_send delivered InvalidOtp, s)
      end
  | None => (ctx_send delivered NeedJoin, s)
  end.

(** Lines 120-124 of [bet]: the first game, created and committed when the
    table is empty. *)
Definition get_or_create_game (now : Z) (s : Db) : Game.t * Db :=
  match first_game s with
  | Some game => (game, s)
  | None =>
      let game := Game.mk (next_id (map Game.id (games s))) (Some 0%float) now in
      (game, mkDb (players s) (games s ++ [game]) (game_players s) (session_failed s))
  end.

Definition bet (author : str) (amount : float) (otp_code : str) (now : Z)
    (delivered : bool) (s : Db) : Reply * Db :=
  if session_failed s then (Raised PendingRollbackError, s) else
  match find_player author s with
  | Some player =>
      match verify_otp (Player.otp_secret player) otp_code with
      | Raise e => (Raised e, s)
      | Ok true =>
          match py_ge (Player.balance player) amount with
          | Raise e => (Raised e, s)
          | Ok true =>
              let (game, s1) := get_or_create_game now s in
              match py_sub (Player.balance player) amount with
              | Raise e => (Raised e, s1)
              | Ok new_balance =>
                  let debited :=
                    set_balance (Player.id player) (to_column new_balance)
                      (players s1) in
                  match py_add (Game.pot game) amount with
                  | Raise e =>
                      (* line 127 raises: the balance of line 126 stays in
                         the session *)
                      (Raised e, mkDb debited (games s1) (game_players s1) false)
                  | Ok new_pot =>
                      (* the INSERT of a second row (game_id, player_id) is
                         refused: the commit of line 132 raises and the
                         transaction is rolled back *)
                      if has_row (Game.id game) (Player.id player) (game_players s1)
                      then (Raised IntegrityError, fail_session s1)
                      else
                        (ctx_send delivered (BetOk amount (to_column new_pot)),
                         mkDb debited
                              (set_pot (Game.id game) (to_column new_pot) (games s1))
                              (game_players s1 ++
                                 [GamePlayer.mk (Game.id game) (Player.id player)
                                    (to_column amount)])
                              false)
                  end
              end
          | Ok false => (ctx_send delivered InsufficientBalance, s)
          end
      | Ok false => (ctx_send delivered InvalidOtp, s)
      end
  | None => (ctx_send delivered NeedJoin, s)
  end.

Definition win (author : str) (delivered : bool) (s : Db) : Reply * Db :=
  if session_failed s then (Raised PendingRollbackError, s) else
  match find_player author s with
  | Some player =>
      match first_game s with
      | Some game =>
          match Game.pot game with
          | None => (Raised TypeError, s)
          | Some pot =>
              if (0 <? pot)%float then
                match py_add (Player.balance player) pot with
                | Raise e => (Raised e, s)
                | Ok new_balance =>
                    (ctx_send delivered (WinOk (to_column new_balance)),
                     mkDb (set_balance (Player.id player) (to_column new_balance)
                             (players s))
                          (set_pot (Game.id game) (Some 0%float) (games s))
                          (game_players s) false)
                end
              else (ctx_send delivered NoActivePot, s)
          end
      | None => (ctx_send delivered NoActivePot, s)
      end
  | None => (ctx_send delivered NeedJoin, s)
  end.

(** [ORDER BY balance DESC], as an insertion sort that keeps players of equal
    balance in the order of the table (SQL leaves their order open). *)
Fixpoint insert_desc (p : Player.t) (l : list Player.t) : list Player.t :=
  match l with
  | [] => [p]
  | q :: l' =>
      if sql_ltb (Player.balance p) (Player.balance q)
      then q :: insert_desc p l'
      else p :: q :: l'
  end.

Definition order_by_balance_desc (ps : list Player.t) : list Player.t :=
  fold_right insert_desc [] ps.

Definition row_of (p : Player.t) : str * column :=
  (Player.discord_id p, Player.balance p).

(** [session.query(Player).order_by(Player.balance.desc()).limit(10).all()] *)
Definition top_players (s : Db) : list Player.t :=
  firstn 10 (order_by_balance_desc (players s)).

Definition stats (delivered : bool) (s : Db) : Reply * Db :=
  if session_failed s then (Raised PendingRollbackError, s) else
  (ctx_send delivered (TopPlayers (map row_of (top_players s))), s).

Definition audit (delivered : bool) (s : Db) : Reply * Db :=
  if session_failed s then (Raised PendingRollbackError, s) else
  (ctx_send delivered (AuditReport (map row_of (players s))), s).

(** ** Runs of commands *)

Inductive Command : Type :=
| Join (author : str) (entropy : nat -> byte) (delivered : bool)
| Balance (author : str) (delivered : bool)
| Deposit (author address : str) (amount : float) (otp_code : str)
    (rpc : RpcResult) (delivered : bool)
| Bet (author : str) (amount : float) (otp_code : str) (now : Z) (delivered : bool)
| Win (author : str) (delivered : bool)
| Stats (delivered : bool)
| Audit (delivered : bool).

Definition step (s : Db) (c : Command) : Reply * Db :=
  match c with
  | Join a e d => join a e d s
  | Balance a d => balance a d s
  | Deposit a addr amt code rpc d => deposit a addr amt code rpc d s
  | Bet a amt code now d => bet a amt code now d s
  | Win a d => win a d s
  | Stats d => stats d s
  | Audit d => audit d s
  end.

(** The database after a sequence of commands. *)
Definition run (s : Db) (cs : list Command) : Db :=
  fold_left (fun s c => snd (step s c)) cs s.

(** ** Observations *)

Definition balance_of (author : str) (s : Db) : option column :=
  option_map Player.balance (find_player author s).

(** The pot of the game that [bet] and [win] read; 0 when there is none. *)
Definition pot_of (s : Db) : column :=
  match first_game s with
  | Some game => Game.pot game
  | None => Some 0%float
  end.

(** The contribution rows of the game that [bet] and [win] read. *)
Definition contributions (s : Db) : list GamePlayer.t :=
  match first_game s with
  | Some game =>
      filter (fun r => Nat.eqb (GamePlayer.game_id r) (Game.id game)) (game_players s)
  | None => []
  end.

(** [pot += amount] on column values, as line 127 computes it and the
    commit stores it. *)
Definition pot_plus (pot amount : column) : column :=
  match pot, amount with
  | Some p, Some a => to_column (p + a)%float
  | _, _ => None
  end.

(** The pot that a game holds after the bets of [amounts], placed in this
    order on a pot of 0. *)
Definition pot_of_bets (amounts : list column) : column :=
  fold_left pot_plus amounts (Some 0%float).

(** The primary keys [players.id] and [games.id] hold no value twice. *)
Fixpoint unique (ids : list nat) : bool :=
  match ids with
  | [] => true
  | i :: ids' => negb (existsb (Nat.eqb i) ids') && unique ids'
  end.

Definition wf (s : Db) : bool :=
  unique (map Player.id (players s)) && unique (map Game.id (games s)).

(** [win] by [author] reaches its commit in [s]. *)
Definition win_pays (author : str) (s : Db) : bool :=
  negb (session_failed s) &&
  match find_player author s, first_game s with
  | Some player, Some game =>
      match Game.pot game, Player.balance player with
      | Some pot, Some _ => (0 <? pot)%float
      | _, _ => false
      end
  | _, _ => false
  end.

Definition pays (s : Db) (c : Command) : bool :=
  match c with
  | Win author _ => win_pays author s
  | _ => false
  end.

(** The number of contribution rows of the game that were there when the
    pot was last paid out in the run [cs] from [s]; [k] when it was not. *)
Fixpoint settled_rows (s : Db) (cs : list Command) (k : nat) : nat :=
  match cs with
  | [] => k
  | c :: cs' =>
      settled_rows (snd (step s c)) cs'
        (if pays s c then List.length (contributions s) else k)
  end.

(** A column that holds no number below zero: NULL, or a number that zero
    does not exceed. *)
Definition not_below_zero (c : column) : bool :=
  match c with
  | Some x => (0 <=? x)%float
  | None => true
  end.

Definition balances_nonneg (s : Db) : Prop :=
  Forall (fun p => not_below_zero (Player.balance p) = true) (players s).

(** Conditions on the commands of a run. *)
Definition accepted_deposit_nonneg (c : Command) : bool :=
  match c with
  | Deposit _ _ amount _ (RpcTxid _) _ => negb (amount <? 0)%float
  | _ => true
  end.

Definition bet_nonneg (c : Command) : bool :=
  match c with
  | Bet _ amount _ _ _ => negb (amount <? 0)%float
  | _ => true
  end.

Definition is_win (c : Command) : bool :=
  match c with
  | Win _ _ => true
  | _ => false
  end.

(** [p] comes before [q] under [ORDER BY balance DESC]: the balance of [q]
    is not above that of [p]. *)
Definition balance_desc (p q : Player.t) : Prop :=
  sql_ltb (Player.balance p) (Player.balance q) = false.

(** ** Further observations *)

(** One of the characters [0-9a-f]. *)
Definition is_hexdigit (c : N) : bool :=
  (N.leb 48 c && N.leb c 57) || (N.leb 97 c && N.leb c 102).

(** The replies of a command that wrote nothing: a message of refusal, the
    answer of a command that only reads, [PendingRollbackError], and the
    exception of the wallet. *)
Definition no_write_reply (r : Reply) : bool :=
  match r with
  | AlreadyJoined | NeedJoin | TransactionFailed _ | InvalidOtp
  | InsufficientBalance | NoActivePot => true
  | BalanceIs _ | TopPlayers _ | AuditReport _ => true
  | Raised PendingRollbackError | Raised RpcError => true
  | _ => false
  end.

(** The command [c], with [ctx.send] delivering or not. *)
Definition with_delivery (delivered : bool) (c : Command) : Command :=
  match c with
  | Join a e _ => Join a e delivered
  | Balance a _ => Balance a delivered
  | Deposit a addr amt code rpc _ => Deposit a addr amt code rpc delivered
  | Bet a amt code now _ => Bet a amt code now delivered
  | Win a _ => Win a delivered
  | Stats _ => Stats delivered
  | Audit _ => Audit delivered
  end.

(** The player of [author] holds a contribution row in the game that [bet]
    reads. *)
Definition has_bet (author : str) (s : Db) : bool :=
  match find_player author s, first_game s with
  | Some player, Some game =>
      has_row (Game.id game) (Player.id player) (game_players s)
  | _, _ => false
  end.

(** The primary key of a contribution row. *)
Definition row_key (r : GamePlayer.t) : nat * nat :=
  (GamePlayer.game_id r, GamePlayer.player_id r).

(** The contribution rows have distinct primary keys and refer to a stored
    game and a stored player. *)
Definition rows_consistent (s : Db) : Prop :=
  NoDup (map row_key (game_players s)) /\
  Forall (fun r => In (GamePlayer.player_id r) (map Player.id (players s)) /\
                   In (GamePlayer.game_id r) (map Game.id (games s)))
    (game_players s).

(** Two records of one player: the balance may differ, nothing else. *)
Definition same_player (p p' : Player.t) : Prop :=
  Player.id p' = Player.id p /\
  Player.discord_id p' = Player.discord_id p /\
  Player.otp_secret p' = Player.otp_secret p.

(** ** Sample players and runs *)

Definition alice : str := lit "1001".
Definition bob : str := lit "1002".
Definition alice_entropy : nat -> byte :=
  fun i => nth i [x00; x01; xff; xab] x5a.
Definition bob_entropy : nat -> byte :=
  fun i => nth i [x10; x20; x30; x40] xc3.
Definition alice_code : str := generate_otp_secret alice_entropy.
Definition bob_code : str := generate_otp_secret bob_entropy.
Definition addr : str := lit "bc1q".
Definition tx : str := lit "f00d".

(** Alice alone, just registered. *)
Definition db_alice : Db := run empty_db [Join alice alice_entropy true].

(** Alice and Bob registered, 10 credited to each. *)
Definition funded : list Command :=
  [ Join alice alice_entropy true;
    Deposit alice addr 10 alice_code (RpcTxid tx) true;
    Join bob bob_entropy true;
    Deposit bob addr 10 bob_code (RpcTxid tx) true ].

(** Alice's second bet, which the primary key of [game_players] refuses. *)
Definition refused : list Command :=
  funded ++ [ Bet alice 4 alice_code 0%Z true; Bet alice 1 alice_code 1%Z true ].

(** ** The writes of a command *)

(** Every reply but the four messages of success: a command that wrote
    nothing answers with one of these. *)
Definition quiet (r : Reply) : bool :=
  match r with
  | Joined _ | DepositOk _ _ | BetOk _ _ | WinOk _ => false
  | _ => true
  end.

(** [effect s c r s']: command [c] run in [s] may answer [r] and leave [s'].
    One constructor for each place where a command body changes the session:
    the commit of [join] (line 81), of [deposit] (line 104), of [win] (line
    151), and in [bet] the assignment of line 126 followed by the
    [TypeError] of line 127, the refused commit of line 132 and the accepted
    one. [step_effect] below shows that every step is one of them. *)
Inductive effect (s : Db) : Command -> Reply -> Db -> Prop :=
| eff_none (c : Command) (r : Reply) :
    quiet r = true ->
    effect s c r s
| eff_join (author : str) (entropy : nat -> byte) (delivered : bool) :
    session_failed s = false ->
    find_player author s = None ->
    effect s (Join author entropy delivered)
      (ctx_send delivered (Joined (generate_otp_secret entropy)))
      (mkDb (players s ++
               [Player.mk (next_id (map Player.id (players s))) author
                  (Some 0%float) (generate_otp_secret entropy)])
            (games s) (game_players s) false)
| eff_deposit (author address : str) (amount : float) (otp_code txid : str)
    (delivered : bool) (player : Player.t) (b : float) :
    session_failed s = false ->
    find_player author s = Some player ->
    verify_otp (Player.otp_secret player) otp_code = Ok true ->
    Player.balance player = Some b ->
    effect s (Deposit author address amount otp_code (RpcTxid txid) delivered)
      (ctx_send delivered (DepositOk amount txid))
      (mkDb (set_balance (Player.id player) (to_column (b + amount)) (players s))
            (games s) (game_players s) false)
| eff_bet_debit (author : str) (amount : float) (otp_code : str) (now : Z)
    (delivered : bool) (player : Player.t) (b : float) (game : Game.t) (s1 : Db) :
    session_failed s = false ->
    find_player author s = Some player ->
    verify_otp (Player.otp_secret player) otp_code = Ok true ->
    Player.balance player = Some b ->
    (amount <=? b)%float = true ->
    get_or_create_game now s = (game, s1) ->
    Game.pot game = None ->
    effect s (Bet author amount otp_code now delivered)
      (Raised TypeError)
      (mkDb (set_balance (Player.id player) (to_column (b - amount)) (players s1))
            (games s1) (game_players s1) false)
| eff_bet_refused (author : str) (amount : float) (otp_code : str) (now : Z)
    (delivered : bool) (player : Player.t) (b : float) (game : Game.t) (s1 : Db)
    (p : float) :
    session_failed s = false ->
    find_player author s = Some player ->
    verify_otp (Player.otp_secret player) otp_code = Ok true ->
    Player.balance player = Some b ->
    (amount <=? b)%float = true ->
    get_or_create_game now s = (game, s1) ->
    Game.pot game = Some p ->
    has_row (Game.id game) (Player.id player) (game_players s1) = true ->
    effect s (Bet author amount otp_code now delivered)
      (Raised IntegrityError)
      (fail_session s1)
| eff_bet (author : str) (amount : float) (otp_code : str) (now : Z)
    (delivered : bool) (player : Player.t) (b : float) (game : Game.t) (s1 : Db)
    (p : float) :
    session_failed s = false ->
    find_player author s = Some player ->
    verify_otp (Player.otp_secret player) otp_code = Ok true ->
    Player.balance player = Some b ->
    (amount <=? b)%float = true ->
    get_or_create_game now s = (game, s1) ->
    Game.pot game = Some p ->
    has_row (Game.id game) (Player.id player) (game_players s1) = false ->
    effect s (Bet author amount otp_code now delivered)
      (ctx_send delivered (BetOk amount (to_column (p + amount))))
      (mkDb (set_balance (Player.id player) (to_column (b - amount)) (players s1))
            (set_pot (Game.id game) (to_column (p + amount)) (games s1))
            (game_players s1 ++
               [GamePlayer.mk (Game.id game) (Player.id player) (to_column amount)])
            false)
| eff_win (author : str) (delivered : bool) (player : Player.t) (b : float)
    (game : Game.t) (p : float) :
    session_failed s = false ->
    find_player author s = Some player ->
    first_game s = Some game ->
    Game.pot game = Some p ->
    (0 <? p)%float = true ->
    Player.balance player = Some b ->
    effect s (Win author delivered)
      (ctx_send delivered (WinOk (to_column (b + p))))
      (mkDb (set_balance (Player.id player) (to_column (b + p)) (players s))
            (set_pot (Game.id game) (Some 0%float) (games s))
            (game_players s) false).

(** ** Relations between two states *)

(** [s'] keeps the players of [s]: every identity found in [s] is found in
    [s'], with the same primary key, identity and secret. *)
Definition keeps_players (s s' : Db) : Prop :=
  forall author p, find_player author s = Some p ->
  exists p', find_player author s' = Some p' /\ same_player p p'.

(** [s'] keeps the game of [s]. *)
Definition keeps_game (s s' : Db) : Prop :=
  forall g, first_game s = Some g ->
  exists g', first_game s' = Some g' /\
             Game.id g' = Game.id g /\
             Game.created_at g' = Game.created_at g /\
             List.length (games s') = List.length (games s).

Create HintDb effects.

(** The pot accounts for the contribution rows of the game after the first
    [k]: it is what their bets, placed in the order of the rows on a pot of
    0, leave; and no row is stored before a game is. *)
Definition pot_accounts (s : Db) (k : nat) : Prop :=
  (games s = [] -> game_players s = []) /\
  (k <= List.length (contributions s))%nat /\
  pot_of s = pot_of_bets (skipn k (map GamePlayer.bet_amount (contributions s))).

(** * Facts on binary64 numbers

    What the proofs need of IEEE 754 arithmetic, derived from the bit-level
    specification of the primitive floats. *)

Module SF.

(** The sign carried by a number; a NaN carries every sign. *)
Definition has_sign (s : bool) (v : spec_float) : Prop :=
  match v with
  | S754_nan => True
  | S754_zero s' | S754_infinity s' | S754_finite s' _ _ => s' = s
  end.

(** Not below zero: zero, positive, or NaN. *)
Definition nonneg (v : spec_float) : Prop :=
  SFltb v (S754_zero false) = false.

(** An order-preserving key for the numbers that are not NaN. *)
Definition key (v : spec_float) : Z * Z * Z :=
  match v with
  | S754_nan => (0, 0, 0)%Z
  | S754_zero _ => (0, 0, 0)%Z
  | S754_infinity true => (-2, 0, 0)%Z
  | S754_infinity false => (2, 0, 0)%Z
  | S754_finite true m e => (-1, - e, - Zpos m)%Z
  | S754_finite false m e => (1, e, Zpos m)%Z
  end.

Definition key_lt (a b : Z * Z * Z) : Prop :=
  let '(a1, a2, a3) := a in
  let '(b1, b2, b3) := b in
  (a1 < b1 \/ (a1 = b1 /\ (a2 < b2 \/ (a2 = b2 /\ a3 < b3))))%Z.

Definition is_nan (v : spec_float) : bool :=
  match v with
  | S754_nan => true
  | _ => false
  end.

End SF.

Ltac sf_compare_cases :=
  repeat match goal with
    | |- context [Pos.compare_cont Eq ?a ?b] =>
        change (Pos.compare_cont Eq a b) with (Pos.compare a b);
        destruct (Pos.compare_spec a b)
    | H : context [Pos.compare_cont Eq ?a ?b] |- _ =>
        change (Pos.compare_cont Eq a b) with (Pos.compare a b) in H;
        destruct (Pos.compare_spec a b)
    | |- context [Z.compare ?a ?b] => destruct (Z.compare_spec a b)
    | H : context [Z.compare ?a ?b] |- _ => destruct (Z.compare_spec a b)
    end.

Lemma SFltb_key (x y : spec_float) :
  SF.is_nan x = false -> SF.is_nan y = false ->
  (SFltb x y = true <-> SF.key_lt (SF.key x) (SF.key y)).
Proof.
  intros Hx Hy.
  destruct x as [[|]|[|]| |[|] mx ex]; try discriminate;
    destruct y as [[|]|[|]| |[|] my ey]; try discriminate;
    unfold SFltb, SF.key_lt; simpl; sf_compare_cases; simpl;
    split; intros Hgoal; try discriminate; try reflexivity; try lia.
Qed.

Lemma SFleb_key (x y : spec_float) :
  SF.is_nan x = false -> SF.is_nan y = false ->
  (SFleb x y = true <-> ~ SF.key_lt (SF.key y) (SF.key x)).
Proof.
  intros Hx Hy.
  destruct x as [[|]|[|]| |[|] mx ex]; try discriminate;
    destruct y as [[|]|[|]| |[|] my ey]; try discriminate;
    unfold SFleb, SF.key_lt; simpl; sf_compare_cases; simpl;
    split; intros Hgoal; try discriminate; try reflexivity; try lia.
Qed.

Lemma SFleb_not_nan (x y : spec_float) :
  SFleb x y = true -> SF.is_nan x = false /\ SF.is_nan y = false.
Proof. destruct x, y; simpl; try discriminate; auto. Qed.

Lemma SFltb_not_nan (x y : spec_float) :
  SFltb x y = true -> SF.is_nan x = false /\ SF.is_nan y = false.
Proof. destruct x, y; simpl; try discriminate; auto. Qed.

Lemma key_lt_trans_neg (a b c : Z * Z * Z) :
  ~ SF.key_lt b a -> ~ SF.key_lt c b -> ~ SF.key_lt c a.
Proof.
  destruct a as [[a1 a2] a3], b as [[b1 b2] b3], c as [[c1 c2] c3].
  unfold SF.key_lt. lia.
Qed.

Lemma key_lt_asym (a b : Z * Z * Z) : SF.key_lt a b -> ~ SF.key_lt b a.
Proof.
  destruct a as [[a1 a2] a3], b as [[b1 b2] b3]. unfold SF.key_lt. lia.
Qed.

Lemma SFleb_trans (x y z : spec_float) :
  SFleb x y = true -> SFleb y z = true -> SFleb x z = true.
Proof.
  intros Hxy Hyz.
  destruct (SFleb_not_nan x y Hxy) as [Hx Hy].
  destruct (SFleb_not_nan y z Hyz) as [_ Hz].
  apply SFleb_key in Hxy; [|assumption..]. apply SFleb_key in Hyz; [|assumption..].
  apply SFleb_key; [assumption..|]. now apply (key_lt_trans_neg _ (SF.key y)).
Qed.

Lemma SFltb_SFleb_false (x y : spec_float) :
  SFltb x y = true -> SFleb y x = false.
Proof.
  intros H. destruct (SFltb_not_nan x y H) as [Hx Hy].
  apply SFltb_key in H; [|assumption..].
  destruct (SFleb y x) eqn:E; [|reflexivity].
  apply SFleb_key in E; [|assumption..]. contradiction.
Qed.

Lemma SFltb_asym (x y : spec_float) : SFltb x y = true -> SFltb y x = false.
Proof.
  intros H. destruct (SFltb_not_nan x y H) as [Hx Hy].
  apply SFltb_key in H; [|assumption..].
  destruct (SFltb y x) eqn:E; [|reflexivity].
  apply SFltb_key in E; [|assumption..]. now apply key_lt_asym in H.
Qed.

Lemma SFltb_false_trans (x y z : spec_float) :
  SF.is_nan x = false -> SF.is_nan y = false -> SF.is_nan z = false ->
  SFltb x y = false -> SFltb y z = false -> SFltb x z = false.
Proof.
  intros Hx Hy Hz Hxy Hyz.
  destruct (SFltb x z) eqn:E; [|reflexivity].
  apply SFltb_key in E; [|assumption..].
  assert (H1 : ~ SF.key_lt (SF.key x) (SF.key y)).
  { intros H. apply SFltb_key in H; [congruence | assumption..]. }
  assert (H2 : ~ SF.key_lt (SF.key y) (SF.key z)).
  { intros H. apply SFltb_key in H; [congruence | assumption..]. }
  exfalso. now apply (key_lt_trans_neg _ _ _ H2 H1).
Qed.

(** *** Signs of sums and differences *)

Lemma has_sign_false_nonneg (v : spec_float) : SF.has_sign false v -> SF.nonneg v.
Proof.
  destruct v as [s|s| |s m e]; simpl; unfold SF.nonneg; intros H; subst;
    reflexivity.
Qed.

Lemma nonneg_cases (v : spec_float) :
  SF.nonneg v ->
  match v with
  | S754_infinity s | S754_finite s _ _ => s = false
  | _ => True
  end.
Proof.
  destruct v as [s|[|]| |[|] m e]; unfold SF.nonneg; simpl; intros H;
    try discriminate; auto.
Qed.

Lemma binary_round_aux_sign (sx : bool) (mx ex : Z) (lx : location) :
  SF.has_sign sx (binary_round_aux prec emax sx mx ex lx).
Proof.
  unfold binary_round_aux.
  destruct (shr_fexp prec emax mx ex lx) as [mrs' e'].
  destruct (shr_fexp prec emax _ e' loc_Exact) as [mrs'' e''].
  destruct (shr_m mrs''); [exact eq_refl | | exact I].
  destruct (Z.leb e'' (emax - prec)); exact eq_refl.
Qed.

Lemma binary_round_sign (sx : bool) (mx : positive) (ex : Z) :
  SF.has_sign sx (binary_round prec emax sx mx ex).
Proof.
  unfold binary_round. destruct (shl_align mx ex _) as [mz ez].
  apply binary_round_aux_sign.
Qed.

Lemma binary_normalize_nonneg (m e : Z) :
  (0 <= m)%Z -> SF.nonneg (binary_normalize prec emax m e false).
Proof.
  intros H. apply has_sign_false_nonneg.
  unfold binary_normalize.
  destruct m as [|p|p]; [exact eq_refl | apply binary_round_sign | lia].
Qed.

Lemma SFadd_nonneg (x y : spec_float) :
  SF.nonneg x -> SF.nonneg y -> SF.nonneg (SF64add x y).
Proof.
  intros Hx Hy. pose proof (nonneg_cases x Hx) as Cx.
  pose proof (nonneg_cases y Hy) as Cy.
  destruct x as [sx|sx| |sx mx ex], y as [sy|sy| |sy my ey];
    subst; try reflexivity; try assumption.
  - destruct sx, sy; reflexivity.
  - unfold SF64add, SFadd. apply binary_normalize_nonneg. simpl. lia.
Qed.

(** *** Magnitudes of valid numbers *)

Lemma pos_iter_xO (m d : positive) :
  Zpos (Pos.iter xO m d) = (Zpos m * 2 ^ Zpos d)%Z.
Proof.
  induction d as [|d IH] using Pos.peano_ind.
  - simpl. lia.
  - rewrite Pos.iter_succ, Pos2Z.inj_xO, IH, Pos2Z.inj_succ, Z.pow_succ_r by lia.
    lia.
Qed.

Lemma shl_align_value (m : positive) (e ez : Z) :
  (ez <= e)%Z ->
  Zpos (fst (shl_align m e ez)) = (Zpos m * 2 ^ (e - ez))%Z.
Proof.
  intros H. unfold shl_align. destruct (ez - e)%Z as [|d|d] eqn:E.
  - replace (e - ez)%Z with 0%Z by lia. simpl. lia.
  - lia.
  - replace (e - ez)%Z with (Zpos d) by lia. simpl fst. apply pos_iter_xO.
Qed.

Lemma digits2_pos_bounds (m : positive) :
  (2 ^ (Zpos (digits2_pos m) - 1) <= Zpos m < 2 ^ Zpos (digits2_pos m))%Z.
Proof.
  induction m as [p IH|p IH|]; simpl digits2_pos.
  - rewrite Pos2Z.inj_succ.
    replace (Z.succ (Zpos (digits2_pos p)) - 1)%Z
      with (Z.succ (Zpos (digits2_pos p) - 1)) by lia.
    rewrite !Z.pow_succ_r by lia. lia.
  - rewrite Pos2Z.inj_succ.
    replace (Z.succ (Zpos (digits2_pos p)) - 1)%Z
      with (Z.succ (Zpos (digits2_pos p) - 1)) by lia.
    rewrite !Z.pow_succ_r by lia. lia.
  - simpl. lia.
Qed.

Lemma bounded_digits (m : positive) (e : Z) :
  bounded prec emax m e = true ->
  (Zpos (digits2_pos m) <= prec /\ emin <= e /\
   (emin < e -> Zpos (digits2_pos m) = prec))%Z.
Proof.
  unfold bounded, canonical_mantissa, fexp. intros H.
  apply andb_true_iff in H as [H _]. apply Z.eqb_eq in H. lia.
Qed.

(** Of two valid positive numbers, the one of smaller exponent is not the
    greater. *)
Lemma smaller_exponent_smaller_value (m1 m2 : positive) (e1 e2 : Z) :
  bounded prec emax m1 e1 = true -> bounded prec emax m2 e2 = true ->
  (e1 < e2)%Z ->
  (Zpos m1 <= Zpos m2 * 2 ^ (e2 - e1))%Z.
Proof.
  intros H1 H2 Hlt.
  destruct (bounded_digits m1 e1 H1) as [Hd1 [Hmin1 _]].
  destruct (bounded_digits m2 e2 H2) as [_ [_ Hd2]].
  specialize (Hd2 ltac:(lia)).
  pose proof (digits2_pos_bounds m1) as [_ B1].
  pose proof (digits2_pos_bounds m2) as [B2 _].
  assert (P1 : (2 ^ Zpos (digits2_pos m1) <= 2 ^ prec)%Z)
    by (apply Z.pow_le_mono_r; lia).
  assert (P2 : (2 ^ prec = 2 * 2 ^ (prec - 1))%Z).
  { replace prec with (Z.succ (prec - 1)) at 1 by lia.
    apply Z.pow_succ_r. unfold prec. lia. }
  assert (P3 : (2 ^ 1 <= 2 ^ (e2 - e1))%Z) by (apply Z.pow_le_mono_r; lia).
  rewrite Hd2 in B2. change (2 ^ 1)%Z with 2%Z in P3. nia.
Qed.

Lemma aligned_order (m1 m2 : positive) (e1 e2 : Z) :
  bounded prec emax m1 e1 = true -> bounded prec emax m2 e2 = true ->
  (e1 < e2 \/ (e1 = e2 /\ Zpos m1 <= Zpos m2))%Z ->
  (Zpos (fst (shl_align m1 e1 (Z.min e2 e1)))
   <= Zpos (fst (shl_align m2 e2 (Z.min e2 e1))))%Z /\
  (Zpos (fst (shl_align m1 e1 (Z.min e1 e2)))
   <= Zpos (fst (shl_align m2 e2 (Z.min e1 e2))))%Z.
Proof.
  intros H1 H2 H.
  rewrite (Z.min_comm e2 e1).
  rewrite !shl_align_value by lia.
  assert (E1 : (Z.min e1 e2 = e1)%Z) by lia. rewrite E1.
  replace (e1 - e1)%Z with 0%Z by lia. rewrite Z.pow_0_r, Z.mul_1_r.
  destruct H as [Hlt | [-> Hle]].
  - pose proof (smaller_exponent_smaller_value m1 m2 e1 e2 H1 H2 Hlt). lia.
  - replace (e2 - e2)%Z with 0%Z by lia. rewrite Z.pow_0_r. lia.
Qed.

Lemma SFsub_nonneg (x y : spec_float) :
  valid_binary x = true -> valid_binary y = true ->
  SFleb y x = true -> SF.nonneg (SF64sub x y).
Proof.
  intros Vx Vy Hle.
  destruct x as [sx|sx| |sx mx ex], y as [sy|sy| |sy my ey];
    try discriminate Hle.
  - destruct sx, sy; reflexivity.
  - destruct sy; [reflexivity | discriminate Hle].
  - destruct sy; [reflexivity | discriminate Hle].
  - destruct sx; [discriminate Hle | reflexivity].
  - destruct sx, sy; try reflexivity; discriminate Hle.
  - destruct sx; [discriminate Hle | reflexivity].
  - destruct sx; [discriminate Hle | reflexivity].
  - destruct sy; [reflexivity | discriminate Hle].
  - unfold SF64sub, SFsub. apply binary_normalize_nonneg.
    simpl in Vx, Vy. unfold SFleb in Hle. simpl in Hle.
    destruct sx, sy; simpl cond_Zopp; try discriminate Hle; try lia.
    + (* both negative: |x| <= |y| *)
      assert (H : (ex < ey \/ (ex = ey /\ Zpos mx <= Zpos my))%Z).
      { revert Hle. sf_compare_cases; simpl; intros Hle;
          try discriminate; lia. }
      destruct (aligned_order mx my ex ey Vx Vy H) as [_ Hal]. lia.
    + (* both positive: y <= x *)
      assert (H : (ey < ex \/ (ey = ex /\ Zpos my <= Zpos mx))%Z).
      { revert Hle. sf_compare_cases; simpl; intros Hle;
          try discriminate; lia. }
      destruct (aligned_order my mx ey ex Vy Vx H) as [Hal _]. lia.
Qed.

Lemma SFsub_self (x : spec_float) :
  match x with
  | S754_zero _ | S754_finite _ _ _ => SF64sub x x = S754_zero false
  | _ => True
  end.
Proof.
  destruct x as [[|]|s| |s m e]; try exact I; try reflexivity.
  unfold SF64sub, SFsub. rewrite Z.sub_diag. reflexivity.
Qed.

(** *** The primitive numbers *)

Lemma Prim2SF_is_nan (x : float) : SF.is_nan (Prim2SF x) = PrimFloat.is_nan x.
Proof.
  unfold Prim2SF. destruct (PrimFloat.is_nan x); [reflexivity|].
  destruct (is_zero x); [reflexivity|].
  destruct (is_infinity x); [reflexivity|].
  destruct (Z.frexp x) as [r exp].
  destruct (shr_fexp prec emax _ _ loc_Exact) as [shr e'].
  now destruct (shr_m shr).
Qed.

Lemma Prim2SF_finite (x : float) :
  is_finite x = true ->
  match Prim2SF x with
  | S754_zero _ | S754_finite _ _ _ => True
  | _ => False
  end.
Proof.
  unfold is_finite, Prim2SF. rewrite negb_true_iff, orb_false_iff.
  intros [-> Hinf]. destruct (is_zero x); [exact I|]. rewrite Hinf.
  destruct (Z.frexp x) as [r exp].
  destruct (shr_fexp prec emax _ _ loc_Exact) as [shr e'].
  now destruct (shr_m shr).
Qed.

Lemma float_leb_not_nan (x y : float) :
  (x <=? y)%float = true -> PrimFloat.is_nan x = false /\ PrimFloat.is_nan y = false.
Proof.
  rewrite leb_spec, <- !Prim2SF_is_nan. apply SFleb_not_nan.
Qed.

Lemma float_ltb_not_nan (x y : float) :
  (x <? y)%float = true -> PrimFloat.is_nan x = false /\ PrimFloat.is_nan y = false.
Proof.
  rewrite ltb_spec, <- !Prim2SF_is_nan. apply SFltb_not_nan.
Qed.

Lemma float_leb_trans (x y z : float) :
  (x <=? y)%float = true -> (y <=? z)%float = true -> (x <=? z)%float = true.
Proof. rewrite !leb_spec. apply SFleb_trans. Qed.

Lemma float_ltb_leb_false (x y : float) :
  (x <? y)%float = true -> (y <=? x)%float = false.
Proof. rewrite ltb_spec, leb_spec. apply SFltb_SFleb_false. Qed.

Lemma float_ltb_asym (x y : float) :
  (x <? y)%float = true -> (y <? x)%float = false.
Proof. rewrite !ltb_spec. apply SFltb_asym. Qed.

Lemma float_ltb_false_trans (x y z : float) :
  PrimFloat.is_nan x = false -> PrimFloat.is_nan y = false ->
  PrimFloat.is_nan z = false ->
  (x <? y)%float = false -> (y <? z)%float = false -> (x <? z)%float = false.
Proof.
  rewrite !ltb_spec, <- !Prim2SF_is_nan. apply SFltb_false_trans.
Qed.

(** The sum of two numbers that are not below zero is not below zero. *)
Lemma float_add_nonneg (x y : float) :
  (x <? 0)%float = false -> (y <? 0)%float = false -> (x + y <? 0)%float = false.
Proof.
  rewrite !ltb_spec, add_spec. apply SFadd_nonneg.
Qed.

(** Under the guard [y <= x] the difference [x - y] is not below zero. *)
Lemma float_sub_nonneg (x y : float) :
  (y <=? x)%float = true -> (x - y <? 0)%float = false.
Proof.
  rewrite leb_spec, ltb_spec, sub_spec.
  apply SFsub_nonneg; apply Prim2SF_valid.
Qed.

(** A finite number less itself is 0. *)
Lemma float_sub_self (x : float) : is_finite x = true -> (x - x)%float = 0%float.
Proof.
  intros H. apply Prim2SF_inj. rewrite sub_spec.
  pose proof (Prim2SF_finite x H) as Hc. pose proof (SFsub_self (Prim2SF x)) as Hs.
  destruct (Prim2SF x); try contradiction; exact Hs.
Qed.

(** *** Columns *)

Lemma to_column_some (x y : float) :
  to_column x = Some y -> PrimFloat.is_nan y = false.
Proof.
  unfold to_column. destruct (PrimFloat.is_nan x) eqn:E; [discriminate|].
  destruct (PrimFloat.is_zero x); intros H; injection H as <-;
    [reflexivity | exact E].
Qed.

Lemma to_column_nonzero (x : float) :
  PrimFloat.is_nan x = false -> PrimFloat.is_zero x = false ->
  to_column x = Some x.
Proof. unfold to_column. now intros -> ->. Qed.

Lemma is_zero_Prim2SF (x : float) :
  PrimFloat.is_zero x = true -> exists s, Prim2SF x = S754_zero s.
Proof.
  unfold PrimFloat.is_zero. rewrite eqb_spec.
  change (Prim2SF 0%float) with (S754_zero false).
  destruct (Prim2SF x) as [s|s| |s m e]; try discriminate;
    try (destruct s; discriminate); eauto.
Qed.

Lemma Prim2SF_zero (x : float) (s : bool) :
  Prim2SF x = S754_zero s ->
  PrimFloat.is_nan x = false /\ PrimFloat.is_zero x = true.
Proof.
  intros H. split.
  - now rewrite <- Prim2SF_is_nan, H.
  - unfold PrimFloat.is_zero. rewrite eqb_spec, H. reflexivity.
Qed.

Lemma Prim2SF_nonzero (x : float) :
  match Prim2SF x with
  | S754_infinity _ | S754_finite _ _ _ => PrimFloat.is_zero x = false
  | _ => True
  end.
Proof.
  unfold PrimFloat.is_zero. rewrite eqb_spec.
  change (Prim2SF 0%float) with (S754_zero false).
  destruct (Prim2SF x) as [s|s| |s m e]; try exact I; destruct s; reflexivity.
Qed.

Lemma to_column_zero (x : float) (s : bool) :
  Prim2SF x = S754_zero s -> to_column x = Some 0%float.
Proof.
  intros H. destruct (Prim2SF_zero x s H) as [Hn Hz].
  unfold to_column. now rewrite Hn, Hz.
Qed.

(** A zero added to [p] counts the same whatever its sign, once the sum is
    stored. *)
Lemma to_column_add_zero (p a : float) :
  PrimFloat.is_zero a = true -> to_column (p + a) = to_column (p + 0).
Proof.
  intros Hz. destruct (is_zero_Prim2SF a Hz) as [s Ha].
  pose proof (add_spec p a) as E1. pose proof (add_spec p 0%float) as E2.
  rewrite Ha in E1. change (Prim2SF 0%float) with (S754_zero false) in E2.
  destruct (Prim2SF p) as [sp|sp| |sp mp ep] eqn:Ep.
  - assert (H1 : exists s1, Prim2SF (p + a) = S754_zero s1)
      by (rewrite E1; destruct sp, s; simpl; eauto).
    assert (H2 : exists s2, Prim2SF (p + 0) = S754_zero s2)
      by (rewrite E2; destruct sp; simpl; eauto).
    destruct H1 as [s1 H1], H2 as [s2 H2].
    now rewrite (to_column_zero _ _ H1), (to_column_zero _ _ H2).
  - f_equal. apply Prim2SF_inj. now rewrite E1, E2.
  - assert (H1 : PrimFloat.is_nan (p + a) = true)
      by now rewrite <- Prim2SF_is_nan, E1.
    assert (H2 : PrimFloat.is_nan (p + 0) = true)
      by now rewrite <- Prim2SF_is_nan, E2.
    unfold to_column. now rewrite H1, H2.
  - f_equal. apply Prim2SF_inj. now rewrite E1, E2.
Qed.

(** The amount of a row, as stored, added to the pot gives the pot that
    line 127 computes. *)
Lemma pot_plus_to_column (p a : float) :
  PrimFloat.is_nan a = false ->
  pot_plus (Some p) (to_column a) = to_column (p + a).
Proof.
  intros Hn. unfold to_column at 1. rewrite Hn.
  destruct (PrimFloat.is_zero a) eqn:Hz; simpl; [|reflexivity].
  symmetry. now apply to_column_add_zero.
Qed.

(** A number added to zero is stored as computed. *)
Lemma to_column_zero_add (a : float) :
  PrimFloat.is_nan a = false -> to_column (0 + a) = Some (0 + a)%float.
Proof.
  intros Hn. pose proof (add_spec 0%float a) as E.
  change (Prim2SF 0%float) with (S754_zero false) in E.
  pose proof (Prim2SF_nonzero a) as Hnz. rewrite <- Prim2SF_is_nan in Hn.
  destruct (Prim2SF a) as [s|s| |s m e] eqn:Ea; try discriminate.
  - assert (E0 : (0 + a)%float = 0%float).
    { apply Prim2SF_inj. rewrite E. change (Prim2SF 0%float) with (S754_zero false).
      simpl. now destruct s. }
    rewrite E0. reflexivity.
  - assert (E0 : (0 + a)%float = a) by (apply Prim2SF_inj; now rewrite E, Ea).
    rewrite E0. apply to_column_nonzero; [|exact Hnz].
    now rewrite <- Prim2SF_is_nan, Ea.
  - assert (E0 : (0 + a)%float = a) by (apply Prim2SF_inj; now rewrite E, Ea).
    rewrite E0. apply to_column_nonzero; [|exact Hnz].
    now rewrite <- Prim2SF_is_nan, Ea.
Qed.

Lemma float_not_ltb_leb (x y : float) :
  PrimFloat.is_nan x = false -> PrimFloat.is_nan y = false ->
  (x <? y)%float = false -> (y <=? x)%float = true.
Proof.
  rewrite ltb_spec, leb_spec, <- !Prim2SF_is_nan. intros Hx Hy H.
  apply SFleb_key; [assumption..|]. intros Hk.
  apply SFltb_key in Hk; [congruence | assumption..].
Qed.

Lemma float_leb_not_ltb (x y : float) :
  (x <=? y)%float = true -> (y <? x)%float = false.
Proof.
  intros H. destruct (y <? x)%float eqn:E; [|reflexivity].
  apply float_ltb_leb_false in E. congruence.
Qed.

Lemma float_leb_refl (x : float) :
  PrimFloat.is_nan x = false -> (x <=? x)%float = true.
Proof.
  intros H. apply float_not_ltb_leb; [assumption..|].
  destruct (x <? x)%float eqn:E; [|reflexivity].
  pose proof (float_ltb_asym x x E). congruence.
Qed.

Lemma is_finite_not_nan (x : float) :
  is_finite x = true -> PrimFloat.is_nan x = false.
Proof.
  unfold is_finite. destruct (PrimFloat.is_nan x); [discriminate | reflexivity].
Qed.

Lemma to_column_not_below_zero (x : float) :
  (x <? 0)%float = false -> not_below_zero (to_column x) = true.
Proof.
  intros H. unfold to_column. destruct (PrimFloat.is_nan x) eqn:E; [reflexivity|].
  destruct (PrimFloat.is_zero x); [reflexivity|].
  simpl. now apply float_not_ltb_leb.
Qed.

Lemma not_below_zero_ltb (x : float) :
  not_below_zero (Some x) = true -> (x <? 0)%float = false.
Proof. simpl. apply float_leb_not_ltb. Qed.

Lemma sql_key_some (c : column) (x : float) :
  sql_key c = Some x -> PrimFloat.is_nan x = false.
Proof.
  destruct c as [y|]; simpl; [|discriminate].
  apply to_column_some.
Qed.

Lemma sql_ltb_false_trans (a b c : column) :
  sql_ltb a b = false -> sql_ltb b c = false -> sql_ltb a c = false.
Proof.
  unfold sql_ltb.
  destruct (sql_key a) as [x|] eqn:Ea, (sql_key b) as [y|] eqn:Eb,
    (sql_key c) as [z|] eqn:Ec; try discriminate; try reflexivity.
  apply float_ltb_false_trans; eauto using sql_key_some.
Qed.

Lemma sql_ltb_asym (a b : column) : sql_ltb a b = true -> sql_ltb b a = false.
Proof.
  unfold sql_ltb.
  destruct (sql_key a) as [x|], (sql_key b) as [y|]; try discriminate;
    try reflexivity.
  apply float_ltb_asym.
Qed.

(** * Properties of the ledger *)

(** ** Strings and secrets *)

Lemma str_eqb_eq (a b : str) : str_eqb a b = true <-> a = b.
Proof.
  revert b; induction a as [|x a IH]; intros [|y b]; simpl; split;
    try discriminate; try reflexivity.
  - intros H. apply andb_true_iff in H as [Hxy Hab].
    apply N.eqb_eq in Hxy. apply IH in Hab. now subst.
  - intros H. injection H as -> ->.
    apply andb_true_iff; split; [apply N.eqb_refl | now apply IH].
Qed.

Lemma str_eqb_refl (a : str) : str_eqb a a = true.
Proof. now apply str_eqb_eq. Qed.

Lemma str_eqb_neq (a b : str) : str_eqb a b = false <-> a <> b.
Proof.
  split.
  - intros H E. apply str_eqb_eq in E. congruence.
  - intros H. destruct (str_eqb a b) eqn:E; [|reflexivity].
    apply str_eqb_eq in E. contradiction.
Qed.

Lemma hexdigit_ascii (b : byte) :
  N.ltb (hexdigit (Byte.to_N b / 16)) 128 = true /\
  N.ltb (hexdigit (Byte.to_N b mod 16)) 128 = true.
Proof. destruct b; split; vm_compute; reflexivity. Qed.

Lemma hexlify_isascii (bs : list byte) : isascii (hexlify bs) = true.
Proof.
  induction bs as [|b bs IH]; [reflexivity|].
  unfold hexlify, isascii in *; simpl.
  destruct (hexdigit_ascii b) as [-> ->]. exact IH.
Qed.

Lemma generate_otp_secret_isascii (entropy : nat -> byte) :
  isascii (generate_otp_secret entropy) = true.
Proof. apply hexlify_isascii. Qed.

Lemma verify_otp_self (secret : str) :
  isascii secret = true -> verify_otp secret secret = Ok true.
Proof.
  intros H. unfold verify_otp, compare_digest.
  now rewrite H, str_eqb_refl.
Qed.

Lemma hexdigit_is_hexdigit (k : N) : (k < 16)%N -> is_hexdigit (hexdigit k) = true.
Proof.
  intros H. unfold hexdigit, is_hexdigit.
  destruct (N.ltb k 10) eqn:E.
  - apply N.ltb_lt in E. apply orb_true_iff. left.
    apply andb_true_iff. split; apply N.leb_le; lia.
  - apply N.ltb_ge in E. apply orb_true_iff. right.
    apply andb_true_iff. split; apply N.leb_le; lia.
Qed.

Lemma byte_nibbles (b : byte) :
  (Byte.to_N b / 16 < 16)%N /\ (Byte.to_N b mod 16 < 16)%N.
Proof.
  pose proof (Byte.to_N_bounded b) as H. split.
  - apply N.Div0.div_lt_upper_bound. lia.
  - apply N.mod_lt. discriminate.
Qed.

Lemma hexlify_length (bs : list byte) :
  List.length (hexlify bs) = (2 * List.length bs)%nat.
Proof.
  unfold hexlify. induction bs as [|b bs IH]; [reflexivity|].
  cbn [flat_map]. rewrite length_app, IH. simpl. lia.
Qed.

Lemma hexlify_hexdigits (bs : list byte) : forallb is_hexdigit (hexlify bs) = true.
Proof.
  unfold hexlify. induction bs as [|b bs IH]; [reflexivity|].
  destruct (byte_nibbles b) as [Hhi Hlo]. simpl.
  now rewrite (hexdigit_is_hexdigit _ Hhi), (hexdigit_is_hexdigit _ Hlo).
Qed.

Lemma hexdigit_inj (j k : N) :
  (j < 16)%N -> (k < 16)%N -> hexdigit j = hexdigit k -> j = k.
Proof.
  unfold hexdigit. intros Hj Hk.
  destruct (N.ltb j 10) eqn:Ej, (N.ltb k 10) eqn:Ek;
    try apply N.ltb_lt in Ej; try apply N.ltb_ge in Ej;
    try apply N.ltb_lt in Ek; try apply N.ltb_ge in Ek; lia.
Qed.

Lemma hexlify_inj (e1 e2 : list byte) : hexlify e1 = hexlify e2 -> e1 = e2.
Proof.
  revert e2. induction e1 as [|a e1 IH]; intros [|b e2] H;
    try reflexivity; try discriminate.
  unfold hexlify in H. simpl in H. injection H as Hhi Hlo Hrest.
  destruct (byte_nibbles a) as [Ha1 Ha2], (byte_nibbles b) as [Hb1 Hb2].
  apply hexdigit_inj in Hhi; [|assumption..].
  apply hexdigit_inj in Hlo; [|assumption..].
  assert (E : Byte.to_N a = Byte.to_N b).
  { rewrite (N.div_mod' (Byte.to_N a) 16), (N.div_mod' (Byte.to_N b) 16). congruence. }
  assert (a = b).
  { pose proof (Byte.of_to_N a) as Ea. pose proof (Byte.of_to_N b) as Eb.
    rewrite E in Ea. congruence. }
  subst b. f_equal. now apply IH.
Qed.

(** ** Lookups and updates *)

Lemma find_player_In (d : str) (s : Db) (p : Player.t) :
  find_player d s = Some p -> In p (players s) /\ Player.discord_id p = d.
Proof.
  unfold find_player. intros H. apply find_some in H as [Hin Heq].
  split; [exact Hin | now apply str_eqb_eq].
Qed.

Lemma unique_NoDup (ids : list nat) : unique ids = true <-> NoDup ids.
Proof.
  induction ids as [|i ids IH]; simpl.
  - split; [constructor | reflexivity].
  - rewrite andb_true_iff, negb_true_iff, IH. split.
    + intros [Hn Hd]. constructor; [|exact Hd].
      intros Hin. assert (existsb (Nat.eqb i) ids = true); [|congruence].
      apply existsb_exists. exists i. split; [exact Hin | apply Nat.eqb_refl].
    + intros H. inversion H as [|? ? Hn Hd]; subst. split; [|exact Hd].
      destruct (existsb (Nat.eqb i) ids) eqn:E; [|reflexivity].
      apply existsb_exists in E as [j [Hin Hj]]. apply Nat.eqb_eq in Hj. now subst.
Qed.

Lemma set_balance_absent (pid : nat) (b : column) (ps : list Player.t) :
  ~ In pid (map Player.id ps) -> set_balance pid b ps = ps.
Proof.
  induction ps as [|q ps IH]; simpl; [reflexivity|]. intros H.
  destruct (Nat.eqb (Player.id q) pid) eqn:E.
  - apply Nat.eqb_eq in E. exfalso. apply H. now left.
  - f_equal. apply IH. intros Hin. apply H. now right.
Qed.

Lemma set_balance_ids (pid : nat) (b : column) (ps : list Player.t) :
  map Player.id (set_balance pid b ps) = map Player.id ps.
Proof.
  induction ps as [|q ps IH]; simpl; [reflexivity|].
  rewrite IH. now destruct (Nat.eqb (Player.id q) pid).
Qed.

Lemma set_balance_discord_ids (pid : nat) (b : column) (ps : list Player.t) :
  map Player.discord_id (set_balance pid b ps) = map Player.discord_id ps.
Proof.
  induction ps as [|q ps IH]; simpl; [reflexivity|].
  rewrite IH. now destruct (Nat.eqb (Player.id q) pid).
Qed.

Lemma set_balance_secrets (pid : nat) (b : column) (ps : list Player.t) :
  map Player.otp_secret (set_balance pid b ps) = map Player.otp_secret ps.
Proof.
  induction ps as [|q ps IH]; simpl; [reflexivity|].
  rewrite IH. now destruct (Nat.eqb (Player.id q) pid).
Qed.

Lemma set_pot_ids (gid : nat) (v : column) (gs : list Game.t) :
  map Game.id (set_pot gid v gs) = map Game.id gs.
Proof.
  induction gs as [|g gs IH]; simpl; [reflexivity|].
  rewrite IH. now destruct (Nat.eqb (Game.id g) gid).
Qed.

Lemma set_pot_length (gid : nat) (v : column) (gs : list Game.t) :
  List.length (set_pot gid v gs) = List.length gs.
Proof. unfold set_pot. apply length_map. Qed.

(** The player that a lookup by [discord_id] finds is still the one found
    after its balance was set, with the new balance. *)
Lemma find_set_balance (d : str) (ps : list Player.t) (p : Player.t) (b : column) :
  find (fun q => str_eqb (Player.discord_id q) d) ps = Some p ->
  find (fun q => str_eqb (Player.discord_id q) d) (set_balance (Player.id p) b ps)
  = Some (Player.mk (Player.id p) (Player.discord_id p) b (Player.otp_secret p)).
Proof.
  induction ps as [|q ps IH]; simpl; [discriminate|].
  destruct (str_eqb (Player.discord_id q) d) eqn:E.
  - intros H. injection H as ->. rewrite Nat.eqb_refl. simpl. now rewrite E.
  - intros H. destruct (Nat.eqb (Player.id q) (Player.id p)); simpl; rewrite E; auto.
Qed.

Lemma find_app_new (d : str) (ps : list Player.t) (p : Player.t) :
  find (fun q => str_eqb (Player.discord_id q) d) ps = None ->
  Player.discord_id p = d ->
  find (fun q => str_eqb (Player.discord_id q) d) (ps ++ [p]) = Some p.
Proof.
  intros Hnone Hd. induction ps as [|q ps IH]; simpl in *.
  - now rewrite Hd, str_eqb_refl.
  - destruct (str_eqb (Player.discord_id q) d); [discriminate | auto].
Qed.

Lemma find_app_old (d : str) (ps : list Player.t) (p x : Player.t) :
  find (fun q => str_eqb (Player.discord_id q) d) ps = Some p ->
  find (fun q => str_eqb (Player.discord_id q) d) (ps ++ [x]) = Some p.
Proof.
  induction ps as [|q ps IH]; simpl; [discriminate|].
  now destruct (str_eqb (Player.discord_id q) d).
Qed.

Lemma find_none_not_in (d : str) (ps : list Player.t) :
  find (fun q => str_eqb (Player.discord_id q) d) ps = None ->
  ~ In d (map Player.discord_id ps).
Proof.
  induction ps as [|q ps IH]; simpl; [tauto|].
  destruct (str_eqb (Player.discord_id q) d) eqn:E; [discriminate|].
  intros H [Hq | Hin]; [|now apply IH].
  apply str_eqb_neq in E. contradiction.
Qed.

Lemma balance_of_set_balance (author : str) (s : Db) (p : Player.t) (b : column)
    (gs : list Game.t) (rows : list GamePlayer.t) (f : bool) :
  find_player author s = Some p ->
  balance_of author (mkDb (set_balance (Player.id p) b (players s)) gs rows f) = Some b.
Proof.
  intros H. unfold balance_of, find_player in *. simpl.
  now rewrite (find_set_balance _ _ _ b H).
Qed.

Lemma first_game_set_pot (s : Db) (g : Game.t) (v : column) :
  first_game s = Some g ->
  hd_error (set_pot (Game.id g) v (games s))
  = Some (Game.mk (Game.id g) v (Game.created_at g)).
Proof.
  unfold first_game. destruct (games s) as [|g0 gs]; simpl; [discriminate|].
  intros H. injection H as ->. now rewrite Nat.eqb_refl.
Qed.

Lemma pot_of_set_pot (s : Db) (g : Game.t) (v : column)
    (ps : list Player.t) (rows : list GamePlayer.t) (f : bool) :
  first_game s = Some g ->
  pot_of (mkDb ps (set_pot (Game.id g) v (games s)) rows f) = v.
Proof.
  intros H. unfold pot_of, first_game. simpl.
  now rewrite (first_game_set_pot s g v H).
Qed.

Lemma contributions_set_pot (s : Db) (g : Game.t) (v : column)
    (ps : list Player.t) (rows : list GamePlayer.t) (f : bool) :
  first_game s = Some g ->
  contributions (mkDb ps (set_pot (Game.id g) v (games s)) rows f)
  = filter (fun r => Nat.eqb (GamePlayer.game_id r) (Game.id g)) rows.
Proof.
  intros H. unfold contributions, first_game. simpl.
  now rewrite (first_game_set_pot s g v H).
Qed.

Lemma games_set_pot_nonempty (s : Db) (g : Game.t) (v : column) :
  first_game s = Some g -> set_pot (Game.id g) v (games s) <> [].
Proof.
  intros H E. apply (first_game_set_pot s g v) in H. rewrite E in H. discriminate.
Qed.

Lemma pot_of_same_games (s s' : Db) : games s' = games s -> pot_of s' = pot_of s.
Proof. intros H. unfold pot_of, first_game. now rewrite H. Qed.

Lemma next_id_fresh (ids : list nat) : ~ In (next_id ids) ids.
Proof.
  intros H. unfold next_id in H.
  assert (Hle : Forall (fun k => (k <= list_max ids)%nat) ids)
    by now apply list_max_le.
  rewrite Forall_forall in Hle. apply Hle in H. lia.
Qed.

Lemma NoDup_app_fresh {A : Type} (l : list A) (x : A) :
  NoDup l -> ~ In x l -> NoDup (l ++ [x]).
Proof.
  intros Hnd Hx. apply NoDup_app; [exact Hnd | repeat constructor; intros [] |].
  intros y Hy [<- | []]. contradiction.
Qed.

Lemma NoDup_map_eq {A : Type} (f : A -> nat) (l : list A) (x y : A) :
  NoDup (map f l) -> In x l -> In y l -> f x = f y -> x = y.
Proof.
  induction l as [|z l IH]; simpl; [contradiction|].
  intros Hnd Hx Hy E. inversion Hnd as [|? ? Hz Hnd']; subst.
  destruct Hx as [-> | Hx], Hy as [-> | Hy]; auto.
  - exfalso. apply Hz. rewrite E. now apply in_map.
  - exfalso. apply Hz. rewrite <- E. now apply in_map.
Qed.

Lemma find_set_balance_other (d : str) (pid : nat) (b : column) (ps : list Player.t) :
  (forall q, In q ps -> Player.discord_id q = d -> Player.id q <> pid) ->
  find (fun q => str_eqb (Player.discord_id q) d) (set_balance pid b ps)
  = find (fun q => str_eqb (Player.discord_id q) d) ps.
Proof.
  induction ps as [|q ps IH]; simpl; [reflexivity|]. intros H.
  destruct (Nat.eqb (Player.id q) pid) eqn:E; simpl.
  - destruct (str_eqb (Player.discord_id q) d) eqn:Ed.
    + apply Nat.eqb_eq in E. apply str_eqb_eq in Ed.
      exfalso. apply (H q); auto.
    + apply IH. intros q' Hq'. apply H. now right.
  - destruct (str_eqb (Player.discord_id q) d); [reflexivity|].
    apply IH. intros q' Hq'. apply H. now right.
Qed.

Lemma wf_players (s : Db) : wf s = true -> NoDup (map Player.id (players s)).
Proof.
  unfold wf. intros H. apply andb_true_iff in H as [H _]. now apply unique_NoDup.
Qed.

(** Setting the balance of the player found for [author] leaves the balance
    of every other identity as it was. *)
Lemma balance_of_other (s : Db) (author other : str) (p : Player.t) (b : column)
    (gs : list Game.t) (rows : list GamePlayer.t) (f : bool) :
  wf s = true -> find_player author s = Some p -> other <> author ->
  balance_of other (mkDb (set_balance (Player.id p) b (players s)) gs rows f)
  = balance_of other s.
Proof.
  intros Hwf Hp Hne. unfold balance_of, find_player. simpl.
  rewrite find_set_balance_other; [reflexivity|].
  intros q Hq Hd E. apply find_player_In in Hp as [Hin Hpd].
  assert (q = p) by (apply (NoDup_map_eq Player.id (players s)); auto using wf_players).
  subst q. congruence.
Qed.

Lemma run_cons (s : Db) (c : Command) (cs : list Command) :
  run s (c :: cs) = run (snd (step s c)) cs.
Proof. reflexivity. Qed.

(** ** Every step is one of the writes of [effect] *)

Lemma quiet_ctx_send (delivered : bool) (r : Reply) :
  quiet r = true -> quiet (ctx_send delivered r) = true.
Proof. now destruct delivered. Qed.

#[local] Hint Resolve quiet_ctx_send : effects.
#[local] Hint Constructors effect : effects.

Lemma get_or_create_game_spec (now : Z) (s : Db) (game : Game.t) (s1 : Db) :
  get_or_create_game now s = (game, s1) ->
  first_game s1 = Some game /\
  players s1 = players s /\
  game_players s1 = game_players s /\
  session_failed s1 = session_failed s /\
  ((first_game s = Some game /\ s1 = s) \/
   (games s = [] /\ game = Game.mk 1 (Some 0%float) now /\ games s1 = [game])).
Proof.
  unfold get_or_create_game, first_game.
  destruct (games s) as [|g gs] eqn:Eg; simpl; intros H; injection H as <- <-.
  - simpl. split; [reflexivity|]. split; [reflexivity|]. split; [reflexivity|].
    split; [reflexivity|]. right. auto.
  - rewrite Eg. split; [reflexivity|]. split; [reflexivity|].
    split; [reflexivity|]. split; [reflexivity|]. left. auto.
Qed.

Lemma join_effect (author : str) (entropy : nat -> byte) (delivered : bool) (s : Db) :
  effect s (Join author entropy delivered)
    (fst (join author entropy delivered s)) (snd (join author entropy delivered s)).
Proof.
  unfold join. destruct (session_failed s) eqn:Ef; [now constructor|].
  destruct (find_player author s) eqn:Ep; simpl; auto with effects.
Qed.

Lemma deposit_effect (author address : str) (amount : float) (otp_code : str)
    (rpc : RpcResult) (delivered : bool) (s : Db) :
  effect s (Deposit author address amount otp_code rpc delivered)
    (fst (deposit author address amount otp_code rpc delivered s))
    (snd (deposit author address amount otp_code rpc delivered s)).
Proof.
  unfold deposit. destruct (session_failed s) eqn:Ef; [now constructor|].
  destruct (find_player author s) as [player|] eqn:Ep; simpl; auto with effects.
  destruct (verify_otp (Player.otp_secret player) otp_code) as [[|]|e] eqn:Ev;
    simpl; auto with effects.
  destruct rpc as [txid|msg|]; simpl; auto with effects.
  destruct (Player.balance player) as [b|] eqn:Eb; simpl; eauto with effects.
Qed.

Lemma bet_effect (author : str) (amount : float) (otp_code : str) (now : Z)
    (delivered : bool) (s : Db) :
  effect s (Bet author amount otp_code now delivered)
    (fst (bet author amount otp_code now delivered s))
    (snd (bet author amount otp_code now delivered s)).
Proof.
  unfold bet. destruct (session_failed s) eqn:Ef; [now constructor|].
  destruct (find_player author s) as [player|] eqn:Ep; simpl; auto with effects.
  destruct (verify_otp (Player.otp_secret player) otp_code) as [[|]|e] eqn:Ev;
    simpl; auto with effects.
  destruct (Player.balance player) as [b|] eqn:Eb; simpl; auto with effects.
  destruct (amount <=? b)%float eqn:Ege; simpl; auto with effects.
  destruct (get_or_create_game now s) as [game s1] eqn:Eg.
  destruct (Game.pot game) as [p|] eqn:Epot; simpl.
  - destruct (has_row (Game.id game) (Player.id player) (game_players s1)) eqn:Er;
      simpl; eauto with effects.
  - eauto with effects.
Qed.

Lemma win_effect (author : str) (delivered : bool) (s : Db) :
  effect s (Win author delivered)
    (fst (win author delivered s)) (snd (win author delivered s)).
Proof.
  unfold win. destruct (session_failed s) eqn:Ef; [now constructor|].
  destruct (find_player author s) as [player|] eqn:Ep; simpl; auto with effects.
  destruct (first_game s) as [game|] eqn:Eg; simpl; auto with effects.
  destruct (Game.pot game) as [p|] eqn:Epot; simpl; auto with effects.
  destruct (0 <? p)%float eqn:Epos; simpl; auto with effects.
  destruct (Player.balance player) as [b|] eqn:Eb; simpl; eauto with effects.
Qed.

Lemma step_effect (s : Db) (c : Command) :
  effect s c (fst (step s c)) (snd (step s c)).
Proof.
  destruct c; simpl.
  - apply join_effect.
  - unfold balance. destruct (session_failed s); [now constructor|].
    destruct (find_player author s); simpl; auto with effects.
  - apply deposit_effect.
  - apply bet_effect.
  - apply win_effect.
  - unfold stats. destruct (session_failed s); simpl; auto with effects.
  - unfold audit. destruct (session_failed s); simpl; auto with effects.
Qed.

(** A property kept by every write holds after every run. *)
Lemma run_invariant (P : Db -> Prop) :
  (forall s c r s', effect s c r s' -> P s -> P s') ->
  forall cs s, P s -> P (run s cs).
Proof.
  intros Hstep. induction cs as [|c cs IH]; intros s Hs; [exact Hs|].
  rewrite run_cons. apply IH. exact (Hstep _ _ _ _ (step_effect s c) Hs).
Qed.

(** A reflexive and transitive relation that holds across every write holds
    across every run. *)
Lemma run_relation (R : Db -> Db -> Prop) :
  (forall s, R s s) ->
  (forall s1 s2 s3, R s1 s2 -> R s2 s3 -> R s1 s3) ->
  (forall s c r s', effect s c r s' -> R s s') ->
  forall cs s, R s (run s cs).
Proof.
  intros Hrefl Htrans Hstep. induction cs as [|c cs IH]; intros s; [apply Hrefl|].
  rewrite run_cons. apply (Htrans _ (snd (step s c))); [|apply IH].
  exact (Hstep _ _ _ _ (step_effect s c)).
Qed.

(** ** What every write keeps *)

Ltac effect_cases H :=
  inversion H; subst; clear H;
  try match goal with
    | Hg : get_or_create_game _ _ = (_, _) |- _ =>
        destruct (get_or_create_game_spec _ _ _ _ Hg)
          as (Hfirst & Hplayers & Hrows & Hflag & Hgames)
    end.

Lemma wf_iff (s : Db) :
  wf s = true <->
  NoDup (map Player.id (players s)) /\ NoDup (map Game.id (games s)).
Proof. unfold wf. now rewrite andb_true_iff, !unique_NoDup. Qed.

Lemma get_or_create_game_ids (now : Z) (s : Db) (game : Game.t) (s1 : Db) :
  get_or_create_game now s = (game, s1) ->
  NoDup (map Game.id (games s)) -> NoDup (map Game.id (games s1)).
Proof.
  intros Hg Hnd.
  destruct (get_or_create_game_spec _ _ _ _ Hg) as (_ & _ & _ & _ & [[_ ->] | (_ & _ & ->)]);
    [exact Hnd|].
  simpl. constructor; [intros [] | constructor].
Qed.

Lemma effect_wf (s : Db) (c : Command) (r : Reply) (s' : Db) :
  effect s c r s' -> wf s = true -> wf s' = true.
Proof.
  intros H Hwf. apply wf_iff in Hwf as [Hp Hg]. apply wf_iff.
  effect_cases H; simpl;
    rewrite ?set_balance_ids, ?set_pot_ids, ?Hplayers;
    eauto using get_or_create_game_ids.
  split; [|exact Hg]. rewrite map_app. simpl.
  apply NoDup_app_fresh; [exact Hp | apply next_id_fresh].
Qed.

Lemma run_wf (cs : list Command) (s : Db) : wf s = true -> wf (run s cs) = true.
Proof. apply (run_invariant (fun s => wf s = true)). exact effect_wf. Qed.

Lemma effect_discord_ids_unique (s : Db) (c : Command) (r : Reply) (s' : Db) :
  effect s c r s' ->
  NoDup (map Player.discord_id (players s)) ->
  NoDup (map Player.discord_id (players s')).
Proof.
  intros H Hnd.
  effect_cases H; simpl; rewrite ?set_balance_discord_ids, ?Hplayers; auto.
  rewrite map_app. simpl. apply NoDup_app_fresh; [exact Hnd|].
  now apply find_none_not_in.
Qed.

Lemma find_set_balance_gen (d : str) (pid : nat) (b : column) (ps : list Player.t) :
  find (fun q => str_eqb (Player.discord_id q) d) (set_balance pid b ps)
  = option_map
      (fun q => if Nat.eqb (Player.id q) pid
                then Player.mk (Player.id q) (Player.discord_id q) b (Player.otp_secret q)
                else q)
      (find (fun q => str_eqb (Player.discord_id q) d) ps).
Proof.
  induction ps as [|q ps IH]; simpl; [reflexivity|].
  destruct (Nat.eqb (Player.id q) pid) eqn:E; simpl;
    destruct (str_eqb (Player.discord_id q) d); simpl; auto;
    rewrite ?E; reflexivity.
Qed.

Lemma keeps_players_set_balance (s : Db) (pid : nat) (b : column)
    (gs : list Game.t) (rows : list GamePlayer.t) (f : bool) :
  keeps_players s (mkDb (set_balance pid b (players s)) gs rows f).
Proof.
  intros author p Hp. unfold find_player in *. simpl.
  rewrite find_set_balance_gen, Hp. simpl.
  destruct (Nat.eqb (Player.id p) pid); eexists; split; try reflexivity;
    repeat split.
Qed.

Lemma keeps_players_same (s s' : Db) : players s' = players s -> keeps_players s s'.
Proof.
  intros E author p Hp. exists p. unfold find_player in *. rewrite E.
  split; [exact Hp | repeat split].
Qed.

Lemma effect_keeps_players (s : Db) (c : Command) (r : Reply) (s' : Db) :
  effect s c r s' -> keeps_players s s'.
Proof.
  intros H. effect_cases H;
    try (apply keeps_players_same; simpl; congruence);
    try (rewrite ?Hplayers; apply keeps_players_set_balance).
  intros a p Hp. exists p. unfold find_player in *. simpl.
  split; [now apply find_app_old | repeat split].
Qed.

Lemma run_keeps_players (cs : list Command) (s : Db) : keeps_players s (run s cs).
Proof.
  apply (run_relation keeps_players).
  - intros s0. now apply keeps_players_same.
  - intros s1 s2 s3 H12 H23 a p Hp.
    destruct (H12 a p Hp) as [p2 [Hp2 (E1 & E2 & E3)]].
    destruct (H23 a p2 Hp2) as [p3 [Hp3 (F1 & F2 & F3)]].
    exists p3. split; [exact Hp3|]. unfold same_player. repeat split; congruence.
  - exact effect_keeps_players.
Qed.

Lemma set_balance_length (pid : nat) (b : column) (ps : list Player.t) :
  List.length (set_balance pid b ps) = List.length ps.
Proof. unfold set_balance. apply length_map. Qed.

Lemma effect_players_grow (s : Db) (c : Command) (r : Reply) (s' : Db) :
  effect s c r s' -> (List.length (players s) <= List.length (players s'))%nat.
Proof.
  intros H. effect_cases H; simpl;
    rewrite ?set_balance_length, ?Hplayers, ?length_app; simpl; lia.
Qed.

Lemma keeps_game_same (s s' : Db) : games s' = games s -> keeps_game s s'.
Proof.
  intros E g Hg. exists g. unfold first_game in *. rewrite E. auto.
Qed.

Lemma keeps_game_set_pot (s : Db) (game : Game.t) (v : column)
    (ps : list Player.t) (rows : list GamePlayer.t) (f : bool) :
  first_game s = Some game ->
  keeps_game s (mkDb ps (set_pot (Game.id game) v (games s)) rows f).
Proof.
  intros Hgame g Hg. assert (g = game) by congruence. subst g.
  eexists. unfold first_game. simpl.
  split; [now apply first_game_set_pot|]. simpl.
  now rewrite set_pot_length.
Qed.

Lemma get_or_create_game_same (now : Z) (s : Db) (game g : Game.t) (s1 : Db) :
  get_or_create_game now s = (game, s1) -> first_game s = Some g -> s1 = s /\ g = game.
Proof.
  intros Hg Hfirst.
  destruct (get_or_create_game_spec _ _ _ _ Hg)
    as (_ & _ & _ & _ & [[E ->] | (E & _)]).
  - split; congruence.
  - unfold first_game in Hfirst. rewrite E in Hfirst. discriminate.
Qed.

Lemma effect_keeps_game (s : Db) (c : Command) (r : Reply) (s' : Db) :
  effect s c r s' -> keeps_game s s'.
Proof.
  intros H. inversion H; subst; clear H;
    try (apply keeps_game_same; reflexivity);
    try (now apply keeps_game_set_pot);
    intros g Hg;
    match goal with
    | Hgoc : get_or_create_game _ _ = (_, _) |- _ =>
        destruct (get_or_create_game_same _ _ _ _ _ Hgoc Hg) as [-> ->]
    end.
  - now apply keeps_game_same.
  - now apply keeps_game_same.
  - now apply keeps_game_set_pot.
Qed.

Lemma run_keeps_game (cs : list Command) (s : Db) : keeps_game s (run s cs).
Proof.
  apply (run_relation keeps_game).
  - intros s0. now apply keeps_game_same.
  - intros s1 s2 s3 H12 H23 g Hg.
    destruct (H12 g Hg) as [g2 [Hg2 (E1 & E2 & E3)]].
    destruct (H23 g2 Hg2) as [g3 [Hg3 (F1 & F2 & F3)]].
    exists g3. split; [exact Hg3|]. repeat split; congruence.
  - exact effect_keeps_game.
Qed.

Lemma effect_games_at_most_one (s : Db) (c : Command) (r : Reply) (s' : Db) :
  effect s c r s' ->
  (List.length (games s) <= 1)%nat -> (List.length (games s') <= 1)%nat.
Proof.
  intros H Hle. effect_cases H; simpl; rewrite ?set_pot_length; auto;
    destruct Hgames as [[_ ->] | (_ & _ & ->)]; simpl; auto.
Qed.

Lemma effect_rows_extend (s : Db) (c : Command) (r : Reply) (s' : Db) :
  effect s c r s' -> exists more, game_players s' = game_players s ++ more.
Proof.
  intros H. effect_cases H; simpl; rewrite ?Hrows;
    try (exists []; now rewrite app_nil_r).
  eexists. reflexivity.
Qed.

Lemma run_rows_extend (cs : list Command) (s : Db) :
  exists more, game_players (run s cs) = game_players s ++ more.
Proof.
  apply (run_relation (fun s s' => exists more, game_players s' = game_players s ++ more)).
  - intros s0. exists []. now rewrite app_nil_r.
  - intros s1 s2 s3 [m1 H1] [m2 H2]. exists (m1 ++ m2).
    now rewrite H2, H1, app_assoc.
  - exact effect_rows_extend.
Qed.

Lemma has_row_false_not_in (gid pid : nat) (rows : list GamePlayer.t) :
  has_row gid pid rows = false -> ~ In (gid, pid) (map row_key rows).
Proof.
  intros H Hin. apply in_map_iff in Hin as [r [Hk Hr]].
  assert (E : has_row gid pid rows = true); [|congruence].
  unfold has_row. apply existsb_exists. exists r. split; [exact Hr|].
  unfold row_key in Hk. injection Hk as -> ->. now rewrite !Nat.eqb_refl.
Qed.

Lemma first_game_In (s : Db) (g : Game.t) : first_game s = Some g -> In g (games s).
Proof.
  unfold first_game. destruct (games s); simpl; [discriminate|].
  intros H. injection H as ->. now left.
Qed.

Lemma rows_consistent_incl (s s' : Db) :
  game_players s' = game_players s ->
  incl (map Player.id (players s)) (map Player.id (players s')) ->
  incl (map Game.id (games s)) (map Game.id (games s')) ->
  rows_consistent s -> rows_consistent s'.
Proof.
  intros Er Hp Hg [Hnd Hfk]. unfold rows_consistent. rewrite Er.
  split; [exact Hnd|]. eapply Forall_impl; [|exact Hfk].
  intros r [H1 H2]. split; auto.
Qed.

Lemma get_or_create_game_rows_consistent (now : Z) (s : Db) (game : Game.t) (s1 : Db) :
  get_or_create_game now s = (game, s1) -> rows_consistent s -> rows_consistent s1.
Proof.
  intros Hg. destruct (get_or_create_game_spec _ _ _ _ Hg)
    as (_ & Hp & Hr & _ & [[_ ->] | (E & _ & E1)]); [auto|].
  apply rows_consistent_incl; [exact Hr | rewrite Hp; apply incl_refl|].
  rewrite E. intros x [].
Qed.

Lemma effect_rows_consistent (s : Db) (c : Command) (r : Reply) (s' : Db) :
  effect s c r s' -> rows_consistent s -> rows_consistent s'.
Proof.
  intros H Hs.
  inversion H; subst; clear H;
    try match goal with
      | Hgoc : get_or_create_game _ _ = (_, _) |- _ =>
          pose proof (get_or_create_game_rows_consistent _ _ _ _ Hgoc Hs) as Hs1;
          destruct (get_or_create_game_spec _ _ _ _ Hgoc)
            as (Hfirst & Hplayers & Hrows & Hflag & Hgames)
      end.
  - exact Hs.
  - apply (rows_consistent_incl s); simpl; auto using incl_refl.
    rewrite map_app. now apply incl_appl, incl_refl.
  - apply (rows_consistent_incl s); simpl; rewrite ?set_balance_ids;
      auto using incl_refl.
  - apply (rows_consistent_incl s1); simpl; rewrite ?set_balance_ids;
      auto using incl_refl.
  - apply (rows_consistent_incl s1); simpl; auto using incl_refl.
  - destruct Hs1 as [Hnd Hfk]. split; simpl.
    + rewrite map_app. simpl. apply NoDup_app_fresh; [exact Hnd|].
      now apply has_row_false_not_in.
    + rewrite set_balance_ids, set_pot_ids. apply Forall_app. split; [exact Hfk|].
      constructor; [|constructor]. simpl. split.
      * rewrite Hplayers. apply in_map.
        match goal with
        | Hp : find_player _ s = Some _ |- _ => now apply find_player_In in Hp
        end.
      * apply in_map. now apply first_game_In.
  - apply (rows_consistent_incl s); simpl;
      rewrite ?set_balance_ids, ?set_pot_ids; auto using incl_refl.
Qed.

Lemma effect_secrets_ascii (s : Db) (c : Command) (r : Reply) (s' : Db) :
  effect s c r s' ->
  Forall (fun x => isascii x = true) (map Player.otp_secret (players s)) ->
  Forall (fun x => isascii x = true) (map Player.otp_secret (players s')).
Proof.
  intros H Hs.
  effect_cases H; simpl; rewrite ?set_balance_secrets, ?Hplayers; auto.
  rewrite map_app. apply Forall_app. split; [exact Hs|].
  constructor; [apply generate_otp_secret_isascii | constructor].
Qed.

(** No contribution row is stored before a game is. *)
Lemma effect_no_rows_without_game (s : Db) (c : Command) (r : Reply) (s' : Db) :
  effect s c r s' ->
  (games s = [] -> game_players s = []) ->
  (games s' = [] -> game_players s' = []).
Proof.
  intros H Hs. effect_cases H; simpl; auto.
  - destruct Hgames as [[_ ->] | (E & _ & ->)]; [auto | discriminate].
  - destruct Hgames as [[_ ->] | (E & _ & ->)]; [auto | discriminate].
  - intros E. exfalso. exact (games_set_pot_nonempty s1 game _ Hfirst E).
  - intros E. exfalso.
    match goal with
    | Hg : first_game s = Some _ |- _ => exact (games_set_pot_nonempty s _ _ Hg E)
    end.
Qed.

Lemma has_row_app (gid pid : nat) (rows more : list GamePlayer.t) :
  has_row gid pid rows = true -> has_row gid pid (rows ++ more) = true.
Proof. unfold has_row. rewrite existsb_app. now intros ->. Qed.

(** A contribution row, once stored, is found by every later bet. *)
Lemma run_keeps_bet (cs : list Command) (s : Db) (author : str) :
  has_bet author s = true -> has_bet author (run s cs) = true.
Proof.
  unfold has_bet.
  destruct (find_player author s) as [p|] eqn:Hp; [|discriminate].
  destruct (first_game s) as [g|] eqn:Hg; [|discriminate].
  intros Hrow.
  destruct (run_keeps_players cs s author p Hp) as [p' [-> (Ep & _)]].
  destruct (run_keeps_game cs s g Hg) as [g' [-> (Eg & _)]].
  destruct (run_rows_extend cs s) as [more ->].
  rewrite Ep, Eg. now apply has_row_app.
Qed.

(** ** The leaderboard *)

Lemma insert_desc_perm (p : Player.t) (l : list Player.t) :
  Permutation (insert_desc p l) (p :: l).
Proof.
  induction l as [|q l IH]; simpl; [reflexivity|].
  destruct (sql_ltb (Player.balance p) (Player.balance q)); [|reflexivity].
  rewrite IH. apply perm_swap.
Qed.

Lemma order_by_balance_desc_perm (ps : list Player.t) :
  Permutation (order_by_balance_desc ps) ps.
Proof.
  induction ps as [|p ps IH]; simpl; [reflexivity|].
  rewrite insert_desc_perm. now constructor.
Qed.

Lemma insert_desc_sorted (p : Player.t) (l : list Player.t) :
  StronglySorted balance_desc l -> StronglySorted balance_desc (insert_desc p l).
Proof.
  induction 1 as [|q l Hl IH Hq]; simpl; [repeat constructor|].
  destruct (sql_ltb (Player.balance p) (Player.balance q)) eqn:E.
  - constructor; [exact IH|].
    rewrite Forall_forall in *. intros x Hx.
    apply (Permutation_in _ (insert_desc_perm p l)) in Hx as [<- | Hx].
    + unfold balance_desc. now apply sql_ltb_asym.
    + now apply Hq.
  - constructor; [now constructor|].
    constructor; [exact E|].
    rewrite Forall_forall in *. intros x Hx. specialize (Hq x Hx).
    unfold balance_desc in *. now apply (sql_ltb_false_trans _ (Player.balance q)).
Qed.

Lemma order_by_balance_desc_sorted (ps : list Player.t) :
  StronglySorted balance_desc (order_by_balance_desc ps).
Proof.
  induction ps as [|p ps IH]; simpl; [constructor | now apply insert_desc_sorted].
Qed.

Lemma sorted_app_split (a b : list Player.t) :
  StronglySorted balance_desc (a ++ b) ->
  StronglySorted balance_desc a /\
  (forall p q, In p a -> In q b -> balance_desc p q).
Proof.
  induction a as [|x a IH]; simpl; intros H.
  - split; [constructor | contradiction].
  - inversion H as [|? ? Hs Hf]; subst. destruct (IH Hs) as [Ha Hab].
    rewrite Forall_forall in Hf. split.
    + constructor; [exact Ha|]. rewrite Forall_forall. intros y Hy.
      apply Hf. apply in_or_app. now left.
    + intros p q [<- | Hp] Hq; [|now apply Hab].
      apply Hf. apply in_or_app. now right.
Qed.

Lemma sql_ltb_irrefl (c : column) : sql_ltb c c = false.
Proof.
  destruct (sql_ltb c c) eqn:E; [|reflexivity].
  pose proof (sql_ltb_asym c c E). congruence.
Qed.

(** ** Balances and the pot along a run *)

Lemma set_balance_Forall (P : Player.t -> Prop) (pid : nat) (b : column)
    (ps : list Player.t) :
  (forall q, In q ps -> P q ->
     P (Player.mk (Player.id q) (Player.discord_id q) b (Player.otp_secret q))) ->
  Forall P ps -> Forall P (set_balance pid b ps).
Proof.
  intros Hb Hps. unfold set_balance. apply Forall_forall. intros x Hx.
  apply in_map_iff in Hx as [q [<- Hq]]. rewrite Forall_forall in Hps.
  destruct (Nat.eqb (Player.id q) pid); auto.
Qed.

Lemma balances_nonneg_set (s : Db) (pid : nat) (x : float)
    (gs : list Game.t) (rows : list GamePlayer.t) (f : bool) :
  (x <? 0)%float = false ->
  balances_nonneg s ->
  balances_nonneg (mkDb (set_balance pid (to_column x) (players s)) gs rows f).
Proof.
  intros Hx Hs. unfold balances_nonneg. simpl.
  apply set_balance_Forall; [|exact Hs].
  intros q _ _. simpl. now apply to_column_not_below_zero.
Qed.

Lemma balances_nonneg_found (s : Db) (author : str) (player : Player.t) (b : float) :
  balances_nonneg s -> find_player author s = Some player ->
  Player.balance player = Some b -> (b <? 0)%float = false.
Proof.
  intros Hs Hp Hb. apply find_player_In in Hp as [Hin _].
  unfold balances_nonneg in Hs. rewrite Forall_forall in Hs.
  specialize (Hs player Hin). rewrite Hb in Hs. now apply not_below_zero_ltb.
Qed.

(** Every write keeps the balances at or above zero, a credit of a negative
    amount apart. *)
Lemma effect_balances_nonneg (s : Db) (c : Command) (r : Reply) (s' : Db) :
  effect s c r s' -> accepted_deposit_nonneg c = true ->
  balances_nonneg s -> balances_nonneg s'.
Proof.
  intros H Hc Hs.
  inversion H; subst; clear H;
    try match goal with
      | Hgoc : get_or_create_game _ _ = (_, _) |- _ =>
          destruct (get_or_create_game_spec _ _ _ _ Hgoc)
            as (Hfirst & Hplayers & Hrows & Hflag & Hgames);
          assert (Hs1 : balances_nonneg s1)
            by (unfold balances_nonneg; now rewrite Hplayers)
      end.
  - exact Hs.
  - unfold balances_nonneg. simpl. apply Forall_app. split; [exact Hs|].
    constructor; [reflexivity | constructor].
  - apply balances_nonneg_set; [|exact Hs].
    simpl in Hc. apply negb_true_iff in Hc.
    apply float_add_nonneg; [|exact Hc]. eauto using balances_nonneg_found.
  - apply (balances_nonneg_set s1); [|exact Hs1]. now apply float_sub_nonneg.
  - exact Hs1.
  - apply (balances_nonneg_set s1); [|exact Hs1]. now apply float_sub_nonneg.
  - apply balances_nonneg_set; [|exact Hs].
    apply float_add_nonneg; [eauto using balances_nonneg_found|].
    now apply float_ltb_asym.
Qed.

Lemma run_balances_nonneg (cs : list Command) (s : Db) :
  forallb accepted_deposit_nonneg cs = true ->
  balances_nonneg s -> balances_nonneg (run s cs).
Proof.
  revert s. induction cs as [|c cs IH]; intros s Hcs Hs; [exact Hs|].
  simpl in Hcs. apply andb_true_iff in Hcs as [Hc Hcs].
  rewrite run_cons. apply IH; [exact Hcs|].
  exact (effect_balances_nonneg _ _ _ _ (step_effect s c) Hc Hs).
Qed.

Lemma get_or_create_game_pot_of (now : Z) (s : Db) (game : Game.t) (s1 : Db) :
  get_or_create_game now s = (game, s1) ->
  pot_of s1 = pot_of s /\ pot_of s1 = Game.pot game.
Proof.
  intros Hg.
  destruct (get_or_create_game_spec _ _ _ _ Hg)
    as (Hfirst & _ & _ & _ & [[_ ->] | (E & -> & E1)]).
  - split; [reflexivity|]. unfold pot_of. now rewrite Hfirst.
  - unfold pot_of, first_game. now rewrite E, E1.
Qed.

(** Every write keeps the pot at or above zero, a bet of a negative amount
    apart. *)
Lemma effect_pot_nonneg (s : Db) (c : Command) (r : Reply) (s' : Db) :
  effect s c r s' -> bet_nonneg c = true ->
  not_below_zero (pot_of s) = true -> not_below_zero (pot_of s') = true.
Proof.
  intros H Hc Hs.
  inversion H; subst; clear H;
    try match goal with
      | Hgoc : get_or_create_game _ _ = (_, _) |- _ =>
          destruct (get_or_create_game_pot_of _ _ _ _ Hgoc) as [Hpot Hpot'];
          destruct (get_or_create_game_spec _ _ _ _ Hgoc)
            as (Hfirst & Hplayers & Hrows & Hflag & Hgames)
      end;
    try exact Hs.
  - change (not_below_zero (pot_of s1) = true). now rewrite Hpot.
  - change (not_below_zero (pot_of s1) = true). now rewrite Hpot.
  - rewrite (pot_of_set_pot s1 game); [|exact Hfirst].
    apply to_column_not_below_zero. simpl in Hc. apply negb_true_iff in Hc.
    apply float_add_nonneg; [|exact Hc].
    apply not_below_zero_ltb. congruence.
  - match goal with
    | Hg : first_game s = Some _ |- _ => now rewrite (pot_of_set_pot s _ _ _ _ _ Hg)
    end.
Qed.

Lemma run_pot_nonneg (cs : list Command) (s : Db) :
  forallb bet_nonneg cs = true ->
  not_below_zero (pot_of s) = true -> not_below_zero (pot_of (run s cs)) = true.
Proof.
  revert s. induction cs as [|c cs IH]; intros s Hcs Hs; [exact Hs|].
  simpl in Hcs. apply andb_true_iff in Hcs as [Hc Hcs].
  rewrite run_cons. apply IH; [exact Hcs|].
  exact (effect_pot_nonneg _ _ _ _ (step_effect s c) Hc Hs).
Qed.

(** ** The pot and the contribution rows *)

Lemma win_pays_true (author : str) (delivered : bool) (s : Db) :
  win_pays author s = true ->
  exists player b game p,
    session_failed s = false /\
    find_player author s = Some player /\
    first_game s = Some game /\
    Game.pot game = Some p /\
    (0 <? p)%float = true /\
    Player.balance player = Some b /\
    win author delivered s
    = (ctx_send delivered (WinOk (to_column (b + p))),
       mkDb (set_balance (Player.id player) (to_column (b + p)) (players s))
            (set_pot (Game.id game) (Some 0%float) (games s))
            (game_players s) false).
Proof.
  unfold win_pays, win. destruct (session_failed s); [discriminate|]. simpl.
  destruct (find_player author s) as [player|] eqn:Ep; [|discriminate].
  destruct (first_game s) as [game|] eqn:Eg; [|discriminate].
  destruct (Game.pot game) as [p|] eqn:Epot; [|discriminate].
  destruct (Player.balance player) as [b|] eqn:Eb; [|discriminate].
  intros Hpos. exists player, b, game, p. rewrite Hpos. simpl.
  repeat split; auto.
Qed.

Lemma win_pays_false (author : str) (delivered : bool) (s : Db) :
  win_pays author s = false -> snd (win author delivered s) = s.
Proof.
  unfold win_pays, win. destruct (session_failed s); [reflexivity|]. simpl.
  destruct (find_player author s) as [player|]; [|reflexivity].
  destruct (first_game s) as [game|]; [|reflexivity].
  destruct (Game.pot game) as [p|]; [|reflexivity].
  destruct (Player.balance player) as [b|] eqn:Eb.
  - intros ->. reflexivity.
  - destruct (0 <? p)%float; reflexivity.
Qed.

Lemma pot_accounts_same (s s' : Db) (k : nat) :
  games s' = games s -> game_players s' = game_players s ->
  pot_accounts s k -> pot_accounts s' k.
Proof.
  unfold pot_accounts, pot_of, contributions, first_game.
  now intros -> ->.
Qed.

Lemma get_or_create_game_pot_accounts (now : Z) (s : Db) (game : Game.t) (s1 : Db)
    (k : nat) :
  get_or_create_game now s = (game, s1) -> pot_accounts s k -> pot_accounts s1 k.
Proof.
  intros Hg (Hnone & Hk & Hpot).
  destruct (get_or_create_game_spec _ _ _ _ Hg)
    as (Hfirst & _ & Hrows & _ & [[_ ->] | (E & -> & E1)]).
  - now repeat split.
  - unfold pot_accounts, pot_of, contributions, first_game in *.
    rewrite E in *. rewrite E1, Hrows, (Hnone eq_refl). simpl in *.
    split; [discriminate|]. split; [exact Hk|].
    now destruct k.
Qed.

Lemma pot_of_bets_snoc (amounts : list column) (a : column) :
  pot_of_bets (amounts ++ [a]) = pot_plus (pot_of_bets amounts) a.
Proof. unfold pot_of_bets. now rewrite fold_left_app. Qed.

Lemma contributions_first (s : Db) (game : Game.t) :
  first_game s = Some game ->
  contributions s
  = filter (fun r => Nat.eqb (GamePlayer.game_id r) (Game.id game)) (game_players s).
Proof. unfold contributions. now intros ->. Qed.

(** An accepted bet adds its row and its amount. *)
Lemma bet_pot_accounts (s1 : Db) (game : Game.t) (p amount : float) (k pid : nat)
    (ps : list Player.t) (f : bool) :
  first_game s1 = Some game ->
  Game.pot game = Some p ->
  PrimFloat.is_nan amount = false ->
  pot_accounts s1 k ->
  pot_accounts
    (mkDb ps (set_pot (Game.id game) (to_column (p + amount)) (games s1))
       (game_players s1 ++ [GamePlayer.mk (Game.id game) pid (to_column amount)]) f)
    k.
Proof.
  intros Hfirst Hp Hnan (Hnone & Hk & Hpot).
  assert (Hc : contributions
                 (mkDb ps (set_pot (Game.id game) (to_column (p + amount)) (games s1))
                    (game_players s1 ++
                       [GamePlayer.mk (Game.id game) pid (to_column amount)]) f)
               = contributions s1 ++
                   [GamePlayer.mk (Game.id game) pid (to_column amount)]).
  { rewrite (contributions_set_pot s1 game); [|exact Hfirst].
    rewrite filter_app, (contributions_first s1 game Hfirst). simpl.
    now rewrite Nat.eqb_refl. }
  unfold pot_accounts. rewrite Hc, (pot_of_set_pot s1 game); [|exact Hfirst].
  split; [|split].
  - simpl. intros E. exfalso. exact (games_set_pot_nonempty s1 game _ Hfirst E).
  - rewrite length_app. simpl. lia.
  - rewrite map_app, skipn_app, length_map.
    replace (k - List.length (contributions s1))%nat with 0%nat by lia.
    simpl. rewrite pot_of_bets_snoc, <- Hpot.
    unfold pot_of. rewrite Hfirst, Hp.
    symmetry. now apply pot_plus_to_column.
Qed.

Lemma effect_pot_accounts (s : Db) (c : Command) (r : Reply) (s' : Db) (k : nat) :
  effect s c r s' -> is_win c = false -> pot_accounts s k -> pot_accounts s' k.
Proof.
  intros H Hc Hs.
  inversion H; subst; clear H; try discriminate;
    try match goal with
      | Hgoc : get_or_create_game _ _ = (_, _) |- _ =>
          pose proof (get_or_create_game_pot_accounts _ _ _ _ k Hgoc Hs) as Hs1;
          destruct (get_or_create_game_spec _ _ _ _ Hgoc)
            as (Hfirst & Hplayers & Hrows & Hflag & Hgames)
      end.
  - exact Hs.
  - now apply (pot_accounts_same s).
  - now apply (pot_accounts_same s).
  - now apply (pot_accounts_same s1).
  - now apply (pot_accounts_same s1).
  - apply bet_pot_accounts; auto.
    match goal with
    | Hge : (_ <=? _)%float = true |- _ => now apply float_leb_not_nan in Hge
    end.
Qed.

Lemma pays_not_win (s : Db) (c : Command) : is_win c = false -> pays s c = false.
Proof. now destruct c. Qed.

Lemma step_pot_accounts (s : Db) (c : Command) (k : nat) :
  pot_accounts s k ->
  pot_accounts (snd (step s c))
    (if pays s c then List.length (contributions s) else k).
Proof.
  intros Hs. destruct (is_win c) eqn:Hw.
  - destruct c as [| | | |author delivered| |]; try discriminate. simpl.
    destruct (win_pays author s) eqn:Hpays.
    + destruct (win_pays_true author delivered s Hpays)
        as (player & b & game & p & _ & _ & Hg & _ & _ & _ & ->).
      destruct Hs as (Hnone & Hk & Hpot). unfold pot_accounts. cbn [snd].
      rewrite (contributions_set_pot s game), (pot_of_set_pot s game) by exact Hg.
      rewrite <- (contributions_first s game Hg).
      split; [|split].
      * simpl. intros E. exfalso. exact (games_set_pot_nonempty s game _ Hg E).
      * lia.
      * rewrite skipn_all2; [reflexivity|]. rewrite length_map. lia.
    + now rewrite (win_pays_false author delivered s Hpays).
  - rewrite (pays_not_win s c Hw).
    exact (effect_pot_accounts _ _ _ _ k (step_effect s c) Hw Hs).
Qed.

Lemma run_pot_accounts (cs : list Command) (s : Db) (k : nat) :
  pot_accounts s k -> pot_accounts (run s cs) (settled_rows s cs k).
Proof.
  revert s k. induction cs as [|c cs IH]; intros s k Hs; [exact Hs|].
  rewrite run_cons. simpl. apply IH. now apply step_pot_accounts.
Qed.

Lemma settled_rows_no_win (cs : list Command) (s : Db) (k : nat) :
  forallb (fun c => negb (is_win c)) cs = true -> settled_rows s cs k = k.
Proof.
  revert s k. induction cs as [|c cs IH]; intros s k Hcs; [reflexivity|].
  simpl in Hcs. apply andb_true_iff in Hcs as [Hc Hcs].
  apply negb_true_iff in Hc. simpl. rewrite (pays_not_win s c Hc).
  now apply IH.
Qed.

(** ** Accepted commands *)


Lemma balance_of_inv (author : str) (s : Db) (c : column) :
  balance_of author s = Some c ->
  exists player, find_player author s = Some player /\ Player.balance player = c.
Proof.
  unfold balance_of. destruct (find_player author s) as [player|]; [|discriminate].
  intros H. injection H as <-. now exists player.
Qed.

Lemma deposit_accepted (s : Db) (author address otp_code txid : str)
    (player : Player.t) (b amount : float) (delivered : bool) :
  session_failed s = false ->
  find_player author s = Some player ->
  verify_otp (Player.otp_secret player) otp_code = Ok true ->
  Player.balance player = Some b ->
  deposit author address amount otp_code (RpcTxid txid) delivered s
  = (ctx_send delivered (DepositOk amount txid),
     mkDb (set_balance (Player.id player) (to_column (b + amount)) (players s))
          (games s) (game_players s) false).
Proof.
  intros Hf Hp Hv Hb. unfold deposit. rewrite Hf, Hp, Hv, Hb. reflexivity.
Qed.

Lemma bet_accepted (s : Db) (author otp_code : str) (player : Player.t)
    (b p amount : float) (now : Z) (delivered : bool) :
  session_failed s = false ->
  find_player author s = Some player ->
  verify_otp (Player.otp_secret player) otp_code = Ok true ->
  Player.balance player = Some b ->
  (amount <=? b)%float = true ->
  pot_of s = Some p ->
  has_row (Game.id (fst (get_or_create_game now s))) (Player.id player)
    (game_players s) = false ->
  fst (bet author amount otp_code now delivered s)
    = ctx_send delivered (BetOk amount (to_column (p + amount))) /\
  balance_of author (snd (bet author amount otp_code now delivered s))
    = Some (to_column (b - amount)) /\
  pot_of (snd (bet author amount otp_code now delivered s))
    = to_column (p + amount) /\
  session_failed (snd (bet author amount otp_code now delivered s)) = false.
Proof.
  intros Hf Hp Hv Hb Hge Hpot Hrow. unfold bet. rewrite Hf, Hp, Hv, Hb. simpl.
  rewrite Hge.
  destruct (get_or_create_game now s) as [game s1] eqn:Eg.
  destruct (get_or_create_game_spec _ _ _ _ Eg) as (Hfirst & Hps & Hrs & _ & _).
  destruct (get_or_create_game_pot_of _ _ _ _ Eg) as [Hpot1 Hpot2].
  assert (Hgp : Game.pot game = Some p) by congruence.
  simpl in Hrow. rewrite Hgp, Hrs, Hrow. simpl.
  split; [reflexivity|]. split; [|split; [|reflexivity]].
  - rewrite Hps. now apply balance_of_set_balance.
  - now apply pot_of_set_pot.
Qed.

Lemma win_accepted (s : Db) (author : str) (player : Player.t) (game : Game.t)
    (b p : float) (delivered : bool) :
  session_failed s = false ->
  find_player author s = Some player ->
  first_game s = Some game ->
  Game.pot game = Some p ->
  (0 <? p)%float = true ->
  Player.balance player = Some b ->
  win author delivered s
  = (ctx_send delivered (WinOk (to_column (b + p))),
     mkDb (set_balance (Player.id player) (to_column (b + p)) (players s))
          (set_pot (Game.id game) (Some 0%float) (games s))
          (game_players s) false).
Proof.
  intros Hf Hp Hg Hpot Hpos Hb. unfold win.
  rewrite Hf, Hp, Hg, Hpot, Hpos, Hb. reflexivity.
Qed.

Lemma ctx_send_inv (delivered : bool) (msg r : Reply) :
  ctx_send delivered msg = r -> quiet r = false -> delivered = true /\ r = msg.
Proof.
  destruct delivered; simpl; intros <- H; [auto | discriminate].
Qed.

(** ** The claims *)

(** C1, as the code has it. In every run from the empty database in which
    no credit of a negative amount is accepted, a balance that holds a
    number holds one that is not negative: zero does not exceed it. (A
    balance can also come to hold no number: NULL, after the NaN of an
    infinite balance bet in full.) *)
Theorem balance_never_negative (cs : list Command) (author : str) (b : float) :
  forallb accepted_deposit_nonneg cs = true ->
  balance_of author (run empty_db cs) = Some (Some b) ->
  (0 <=? b)%float = true.
Proof.
  intros Hcs Hb.
  assert (Hinv : balances_nonneg (run empty_db cs))
    by (apply run_balances_nonneg; [exact Hcs | constructor]).
  apply balance_of_inv in Hb as [player [Hp Hb]].
  apply find_player_In in Hp as [Hin _].
  unfold balances_nonneg in Hinv. rewrite Forall_forall in Hinv.
  specialize (Hinv player Hin). now rewrite Hb in Hinv.
Qed.

Lemma balance_never_negative_witness :
  forallb accepted_deposit_nonneg
    (funded ++ [Bet alice 4 alice_code 0%Z true; Win bob true]) = true /\
  balance_of alice
    (run empty_db (funded ++ [Bet alice 4 alice_code 0%Z true; Win bob true]))
    = Some (Some 6%float) /\
  (0 <=? 6)%float = true.
Proof.
  split; [reflexivity|]. split; [reflexivity|].
  exact (balance_never_negative
           (funded ++ [Bet alice 4 alice_code 0%Z true; Win bob true])
           alice 6%float eq_refl eq_refl).
Defined.

(** A balance can come to hold no number although every amount is positive:
    Alice, credited with an infinite amount, bets it; her balance,
    infinity - infinity, is a NaN and is stored as NULL, and the pot is
    infinite. *)
Lemma infinite_bet_voids_balance :
  forallb accepted_deposit_nonneg
    [Join alice alice_entropy true;
     Deposit alice addr infinity alice_code (RpcTxid tx) true;
     Bet alice infinity alice_code 0%Z true] = true /\
  balance_of alice
    (run empty_db [Join alice alice_entropy true;
                   Deposit alice addr infinity alice_code (RpcTxid tx) true;
                   Bet alice infinity alice_code 0%Z true])
    = Some None /\
  pot_of
    (run empty_db [Join alice alice_entropy true;
                   Deposit alice addr infinity alice_code (RpcTxid tx) true;
                   Bet alice infinity alice_code 0%Z true])
    = Some infinity.
Proof. repeat split; reflexivity. Qed.

(** C1, refuted as stated: the credit of -5 to a new player is accepted and
    leaves the balance at -5, below zero. *)
Lemma deposit_of_negative_amount :
  fst (deposit alice addr (-5) alice_code (RpcTxid tx) true db_alice)
    = DepositOk (-5) tx /\
  balance_of alice (snd (deposit alice addr (-5) alice_code (RpcTxid tx) true db_alice))
    = Some (Some (-5)%float) /\
  (-5 <? 0)%float = true.
Proof. repeat split; reflexivity. Qed.

(** C2, as the code has it. After every run from the empty database the pot
    is what the bets of the contribution rows stored since the pot was last
    paid out leave, added in the order of the rows with the rounding of
    binary64 on a pot of 0; as long as no [win] was called these are all
    the rows of the game. When no bet had a negative amount, the pot is not
    below zero. *)
Theorem pot_is_sum_of_open_bets (cs : list Command) :
  pot_of (run empty_db cs)
  = pot_of_bets
      (skipn (settled_rows empty_db cs 0)
         (map GamePlayer.bet_amount (contributions (run empty_db cs)))) /\
  (forallb (fun c => negb (is_win c)) cs = true ->
   pot_of (run empty_db cs)
   = pot_of_bets (map GamePlayer.bet_amount (contributions (run empty_db cs)))) /\
  (forallb bet_nonneg cs = true ->
   not_below_zero (pot_of (run empty_db cs)) = true).
Proof.
  assert (H0 : pot_accounts empty_db 0)
    by (split; [reflexivity | split; [apply Nat.le_refl | reflexivity]]).
  pose proof (run_pot_accounts cs empty_db 0 H0) as (_ & _ & Hpot).
  split; [exact Hpot|]. split.
  - intros Hnw. rewrite Hpot, (settled_rows_no_win cs empty_db 0 Hnw). reflexivity.
  - intros Hnn. now apply run_pot_nonneg.
Qed.

Lemma pot_is_sum_of_open_bets_witness :
  settled_rows empty_db
    (funded ++ [Bet alice 4 alice_code 0%Z true; Win alice true;
                Bet bob 6 bob_code 9%Z true]) 0 = 1%nat /\
  pot_of (run empty_db
            (funded ++ [Bet alice 4 alice_code 0%Z true; Win alice true;
                        Bet bob 6 bob_code 9%Z true]))
  = pot_of_bets
      (skipn 1
         (map GamePlayer.bet_amount
            (contributions
               (run empty_db
                  (funded ++ [Bet alice 4 alice_code 0%Z true; Win alice true;
                              Bet bob 6 bob_code 9%Z true]))))) /\
  not_below_zero
    (pot_of (run empty_db
               (funded ++ [Bet alice 4 alice_code 0%Z true; Win alice true;
                           Bet bob 6 bob_code 9%Z true]))) = true.
Proof.
  split; [reflexivity|]. split.
  - exact (proj1 (pot_is_sum_of_open_bets
                    (funded ++ [Bet alice 4 alice_code 0%Z true; Win alice true;
                                Bet bob 6 bob_code 9%Z true]))).
  - exact (proj2 (proj2 (pot_is_sum_of_open_bets
                           (funded ++ [Bet alice 4 alice_code 0%Z true;
                                       Win alice true;
                                       Bet bob 6 bob_code 9%Z true])))
             eq_refl).
Defined.

(** C2, refuted as stated: a bet of -5 leaves the pot at -5; and after
    Alice's bet of 4 was paid out and Bob bet 6, the pot is 6 while the
    rows of the game hold 4 and 6. *)
Lemma pot_negative_and_pot_below_contributions :
  pot_of (run empty_db (funded ++ [Bet alice (-5) alice_code 0%Z true]))
    = Some (-5)%float /\
  (-5 <? 0)%float = true /\
  pot_of (run empty_db
            (funded ++ [Bet alice 4 alice_code 0%Z true; Win alice true;
                        Bet bob 6 bob_code 9%Z true]))
    = Some 6%float /\
  map GamePlayer.bet_amount
    (contributions
       (run empty_db
          (funded ++ [Bet alice 4 alice_code 0%Z true; Win alice true;
                      Bet bob 6 bob_code 9%Z true])))
    = [Some 4%float; Some 6%float] /\
  pot_of_bets [Some 4%float; Some 6%float] = Some 10%float.
Proof. repeat split; reflexivity. Qed.

(** C3, as the code has it: no command looks at the sign of an amount. For a
    registered player whose balance is a number, with a valid code and a
    usable session, a credit of an amount that zero is not below is
    accepted when the transfer is, adds the amount to the balance and
    leaves the pot; it is refused, with everything unchanged, only when the
    transfer fails. A bet of such an amount by a player whose balance is
    not negative and who has no row in the game is accepted: the balance
    becomes balance - amount and the pot becomes pot + amount. *)
Theorem nonpositive_amount_is_accepted
    (s : Db) (author otp_code : str) (player : Player.t) (b amount : float) :
  session_failed s = false ->
  find_player author s = Some player ->
  verify_otp (Player.otp_secret player) otp_code = Ok true ->
  Player.balance player = Some b ->
  (amount <=? 0)%float = true ->
  (forall address txid delivered,
     fst (deposit author address amount otp_code (RpcTxid txid) delivered s)
       = ctx_send delivered (DepositOk amount txid) /\
     balance_of author
       (snd (deposit author address amount otp_code (RpcTxid txid) delivered s))
       = Some (to_column (b + amount)) /\
     pot_of (snd (deposit author address amount otp_code (RpcTxid txid) delivered s))
       = pot_of s) /\
  (forall address msg delivered,
     deposit author address amount otp_code (RpcJSONRPCException msg) delivered s
     = (ctx_send delivered (TransactionFailed msg), s)) /\
  (forall now delivered p,
     (0 <=? b)%float = true ->
     pot_of s = Some p ->
     has_row (Game.id (fst (get_or_create_game now s))) (Player.id player)
       (game_players s) = false ->
     fst (bet author amount otp_code now delivered s)
       = ctx_send delivered (BetOk amount (to_column (p + amount))) /\
     balance_of author (snd (bet author amount otp_code now delivered s))
       = Some (to_column (b - amount)) /\
     pot_of (snd (bet author amount otp_code now delivered s))
       = to_column (p + amount)).
Proof.
  intros Hf Hp Hv Hb Hle. split; [|split].
  - intros address txid delivered.
    rewrite (deposit_accepted s author address otp_code txid player b amount
               delivered Hf Hp Hv Hb).
    cbn [fst snd]. split; [reflexivity|]. split; [|reflexivity].
    now apply balance_of_set_balance.
  - intros address msg delivered. unfold deposit. now rewrite Hf, Hp, Hv.
  - intros now delivered p Hb0 Hpot Hrow.
    assert (Hge : (amount <=? b)%float = true)
      by now apply (float_leb_trans amount 0 b).
    destruct (bet_accepted s author otp_code player b p amount now delivered
                Hf Hp Hv Hb Hge Hpot Hrow) as (H1 & H2 & H3 & _).
    now repeat split.
Qed.

Lemma nonpositive_amount_is_accepted_witness :
  (-5 <=? 0)%float = true /\
  fst (bet alice (-5) alice_code 0%Z true (run empty_db funded))
    = BetOk (-5) (to_column (0 + -5)) /\
  balance_of alice (snd (bet alice (-5) alice_code 0%Z true (run empty_db funded)))
    = Some (to_column (10 - -5)) /\
  pot_of (snd (bet alice (-5) alice_code 0%Z true (run empty_db funded)))
    = to_column (0 + -5).
Proof.
  split; [reflexivity|].
  exact (proj2 (proj2 (nonpositive_amount_is_accepted (run empty_db funded)
                         alice alice_code
                         (Player.mk 1 alice (Some 10%float) alice_code)
                         10%float (-5)%float
                         eq_refl eq_refl eq_refl eq_refl eq_refl))
           0%Z true 0%float eq_refl eq_refl eq_refl).
Defined.

(** C3, refuted as stated: a bet of -5 and a credit of -5 are both
    accepted; the bet raises the balance from 10 to 15 and lowers the pot to
    -5. *)
Lemma bet_of_negative_amount_accepted :
  fst (bet alice (-5) alice_code 0%Z true (run empty_db funded))
    = BetOk (-5) (Some (-5)%float) /\
  balance_of alice (run empty_db funded) = Some (Some 10%float) /\
  balance_of alice (snd (bet alice (-5) alice_code 0%Z true (run empty_db funded)))
    = Some (Some 15%float) /\
  pot_of (snd (bet alice (-5) alice_code 0%Z true (run empty_db funded)))
    = Some (-5)%float /\
  fst (deposit alice addr (-5) alice_code (RpcTxid tx) true (run empty_db funded))
    = DepositOk (-5) tx.
Proof. repeat split; reflexivity. Qed.

(** C4, as the code has it. With a usable session, [win] by a registered
    player whose balance is a number, when a game exists whose pot is
    positive, adds the whole pot to the balance and sets the pot to 0; the
    game is not closed and its rows are not archived: it stays the game
    that later bets and wins read, its rows attached. When there is no game
    or the pot is not positive the answer is that there is no active pot,
    and nothing changes. *)
Theorem win_pays_pot_and_keeps_game (s : Db) (author : str) (player : Player.t) :
  session_failed s = false ->
  find_player author s = Some player ->
  (forall game p b delivered,
     first_game s = Some game ->
     Game.pot game = Some p ->
     (0 <? p)%float = true ->
     Player.balance player = Some b ->
     fst (win author delivered s) = ctx_send delivered (WinOk (to_column (b + p))) /\
     balance_of author (snd (win author delivered s)) = Some (to_column (b + p)) /\
     pot_of (snd (win author delivered s)) = Some 0%float /\
     first_game (snd (win author delivered s))
       = Some (Game.mk (Game.id game) (Some 0%float) (Game.created_at game)) /\
     game_players (snd (win author delivered s)) = game_players s /\
     contributions (snd (win author delivered s)) = contributions s /\
     (forall now,
        get_or_create_game now (snd (win author delivered s))
        = (Game.mk (Game.id game) (Some 0%float) (Game.created_at game),
           snd (win author delivered s)))) /\
  (forall delivered,
     first_game s = None \/
     (exists game p,
        first_game s = Some game /\ Game.pot game = Some p /\
        (0 <? p)%float = false) ->
     win author delivered s = (ctx_send delivered NoActivePot, s)).
Proof.
  intros Hf Hp. split.
  - intros game p b delivered Hg Hpot Hpos Hb.
    rewrite (win_accepted s author player game b p delivered Hf Hp Hg Hpot Hpos Hb).
    cbn [fst snd].
    assert (Hg' : first_game
                    (mkDb (set_balance (Player.id player) (to_column (b + p))
                             (players s))
                       (set_pot (Game.id game) (Some 0%float) (games s))
                       (game_players s) false)
                  = Some (Game.mk (Game.id game) (Some 0%float) (Game.created_at game)))
      by (unfold first_game; simpl; now apply first_game_set_pot).
    split; [reflexivity|]. split; [now apply balance_of_set_balance|].
    split; [now apply pot_of_set_pot|]. split; [exact Hg'|].
    split; [reflexivity|]. split.
    + rewrite (contributions_set_pot s game) by exact Hg.
      symmetry. now apply contributions_first.
    + intros now. unfold get_or_create_game. now rewrite Hg'.
  - intros delivered [Hg | (game & p & Hg & Hpot & Hpos)]; unfold win.
    + now rewrite Hf, Hp, Hg.
    + now rewrite Hf, Hp, Hg, Hpot, Hpos.
Qed.

Lemma win_pays_pot_and_keeps_game_witness :
  fst (win alice true
         (run empty_db (funded ++ [Bet alice 4 alice_code 0%Z true])))
    = WinOk (to_column (6 + 4)) /\
  pot_of (snd (win alice true
                 (run empty_db (funded ++ [Bet alice 4 alice_code 0%Z true]))))
    = Some 0%float /\
  contributions
    (snd (win alice true
            (run empty_db (funded ++ [Bet alice 4 alice_code 0%Z true]))))
  = contributions (run empty_db (funded ++ [Bet alice 4 alice_code 0%Z true])).
Proof.
  destruct (proj1 (win_pays_pot_and_keeps_game
                     (run empty_db (funded ++ [Bet alice 4 alice_code 0%Z true]))
                     alice (Player.mk 1 alice (Some 6%float) alice_code)
                     eq_refl eq_refl)
              (Game.mk 1 (Some 4%float) 0%Z) 4%float 6%float true
              eq_refl eq_refl eq_refl eq_refl)
    as (H1 & _ & H3 & _ & _ & H6 & _).
  exact (conj H1 (conj H3 H6)).
Defined.

(** C4, refuted as stated: after Alice's win the game of her bet is still
    the game that bets read, and Bob's later bet joins it, next to the row
    of Alice's paid-out bet. *)
Lemma win_leaves_session_open :
  fst (win alice true (run empty_db (funded ++ [Bet alice 4 alice_code 0%Z true])))
    = WinOk (Some 10%float) /\
  games (run empty_db (funded ++ [Bet alice 4 alice_code 0%Z true; Win alice true]))
    = [Game.mk 1 (Some 0%float) 0%Z] /\
  contributions
    (run empty_db (funded ++ [Bet alice 4 alice_code 0%Z true; Win alice true]))
    = [GamePlayer.mk 1 1 (Some 4%float)] /\
  games (run empty_db (funded ++ [Bet alice 4 alice_code 0%Z true; Win alice true;
                                  Bet bob 6 bob_code 9%Z true]))
    = [Game.mk 1 (Some 6%float) 0%Z] /\
  contributions
    (run empty_db (funded ++ [Bet alice 4 alice_code 0%Z true; Win alice true;
                              Bet bob 6 bob_code 9%Z true]))
    = [GamePlayer.mk 1 1 (Some 4%float); GamePlayer.mk 1 2 (Some 6%float)].
Proof. repeat split; reflexivity. Qed.

(** C5, as the code has it: [verify_otp] answers [true] exactly when both
    strings are ASCII and equal, [false] exactly when both are ASCII and
    differ, and raises [TypeError] exactly when one of them holds a
    non-ASCII character. *)
Theorem verify_otp_exact_on_ascii (secret otp_code : str) :
  (verify_otp secret otp_code = Ok true <->
     isascii secret = true /\ isascii otp_code = true /\ secret = otp_code) /\
  (verify_otp secret otp_code = Ok false <->
     isascii secret = true /\ isascii otp_code = true /\ secret <> otp_code) /\
  (verify_otp secret otp_code = Raise TypeError <->
     isascii secret = false \/ isascii otp_code = false).
Proof.
  unfold verify_otp, compare_digest.
  destruct (isascii secret) eqn:Ha, (isascii otp_code) eqn:Hb; simpl.
  - split; [|split]; split.
    + intros E. injection E as E. repeat split. now apply str_eqb_eq.
    + intros [_ [_ E]]. f_equal. now apply str_eqb_eq.
    + intros E. injection E as E. repeat split. now apply str_eqb_neq.
    + intros [_ [_ E]]. f_equal. now apply str_eqb_neq.
    + discriminate.
    + intros [E | E]; discriminate.
  - split; [|split]; split; try discriminate;
      try (intros [_ [E _]]; discriminate); auto.
  - split; [|split]; split; try discriminate;
      try (intros [E _]; discriminate); auto.
  - split; [|split]; split; try discriminate;
      try (intros [E _]; discriminate); auto.
Qed.

(** C5, refuted as stated: a submitted code with the character U+00E9 makes
    the check raise instead of answering [false]. *)
Lemma verify_otp_raises_on_non_ascii :
  verify_otp alice_code [233%N] = Raise TypeError /\
  fst (bet alice 1 [233%N] 0%Z true db_alice) = Raised TypeError.
Proof. split; vm_compute; reflexivity. Qed.

(** C6, as the code has it. For a registered player whose balance is a
    number, with a valid code, a bet of an amount above the balance changes
    nothing: with a usable session the answer is that the balance is
    insufficient; after a refused commit the command raises
    [PendingRollbackError] before it reads the balance. *)
Theorem bet_above_balance_rejected
    (s : Db) (author otp_code : str) (player : Player.t) (b amount : float)
    (now : Z) (delivered : bool) :
  find_player author s = Some player ->
  verify_otp (Player.otp_secret player) otp_code = Ok true ->
  Player.balance player = Some b ->
  (b <? amount)%float = true ->
  (session_failed s = false ->
   bet author amount otp_code now delivered s
   = (ctx_send delivered InsufficientBalance, s)) /\
  (session_failed s = true ->
   bet author amount otp_code now delivered s = (Raised PendingRollbackError, s)).
Proof.
  intros Hp Hv Hb Hlt. split; intros Hf; unfold bet; rewrite Hf; [|reflexivity].
  rewrite Hp, Hv, Hb. simpl. now rewrite (float_ltb_leb_false b amount Hlt).
Qed.

Lemma bet_above_balance_rejected_witness :
  (10 <? 11)%float = true /\
  bet alice 11 alice_code 0%Z true (run empty_db funded)
  = (InsufficientBalance, run empty_db funded).
Proof.
  split; [reflexivity|].
  exact (proj1 (bet_above_balance_rejected (run empty_db funded) alice alice_code
                  (Player.mk 1 alice (Some 10%float) alice_code) 10%float 11%float
                  0%Z true eq_refl eq_refl eq_refl eq_refl) eq_refl).
Defined.

(** C6, refuted as stated: once the commit of Alice's second bet was
    refused, her bet of 100 on a balance of 6, with the valid code, is not
    answered with the insufficient balance: it raises
    [PendingRollbackError]. *)
Lemma bet_above_balance_after_refused_commit :
  fst (bet alice 1 alice_code 1%Z true
         (run empty_db (funded ++ [Bet alice 4 alice_code 0%Z true])))
    = Raised IntegrityError /\
  balance_of alice (run empty_db refused) = Some (Some 6%float) /\
  verify_otp alice_code alice_code = Ok true /\
  (6 <? 100)%float = true /\
  fst (bet alice 100 alice_code 2%Z true (run empty_db refused))
    = Raised PendingRollbackError.
Proof. repeat split; reflexivity. Qed.

(** C7, as the code has it: [stats] takes no limit. With a usable session
    it lists at most 10 players, as many as there are when they are fewer,
    in the order of descending balance; every player left out has a
    balance no greater than any player listed; nothing is said on the order
    of players of equal balance. After a refused commit it raises
    [PendingRollbackError]. The database is unchanged either way. *)
Theorem stats_lists_ten_greatest_balances (s : Db) (delivered : bool) :
  (session_failed s = false ->
   stats delivered s
   = (ctx_send delivered (TopPlayers (map row_of (top_players s))), s)) /\
  (session_failed s = true -> stats delivered s = (Raised PendingRollbackError, s)) /\
  List.length (top_players s) = Nat.min 10 (List.length (players s)) /\
  StronglySorted balance_desc (top_players s) /\
  exists rest,
    Permutation (players s) (top_players s ++ rest) /\
    (forall p q, In p (top_players s) -> In q rest ->
       sql_ltb (Player.balance p) (Player.balance q) = false).
Proof.
  pose proof (order_by_balance_desc_perm (players s)) as Hperm.
  pose proof (order_by_balance_desc_sorted (players s)) as Hsorted.
  rewrite <- (firstn_skipn 10 (order_by_balance_desc (players s))) in Hsorted.
  apply sorted_app_split in Hsorted as [Hs1 Hs2].
  split; [intros Hf; unfold stats; now rewrite Hf|].
  split; [intros Hf; unfold stats; now rewrite Hf|].
  split; [|split; [exact Hs1|]].
  - unfold top_players. rewrite length_firstn.
    now rewrite (Permutation_length Hperm).
  - exists (skipn 10 (order_by_balance_desc (players s))). split; [|exact Hs2].
    unfold top_players. rewrite firstn_skipn. now symmetry.
Qed.

(** C7, refuted as stated: asked for one entry, the leaderboard of two
    registered players has two, and here Bob, who joined first, comes before
    Alice although both have balance 0 and her identity is the smaller. *)
Lemma stats_has_no_limit_argument :
  fst (stats true
         (run empty_db [Join bob bob_entropy true; Join alice alice_entropy true]))
    = TopPlayers [(bob, Some 0%float); (alice, Some 0%float)] /\
  ~ (List.length
       (top_players
          (run empty_db [Join bob bob_entropy true; Join alice alice_entropy true]))
     <= 1)%nat /\
  str_ltb alice bob = true.
Proof.
  split; [reflexivity|]. split; [|reflexivity].
  vm_compute. intros H. inversion H as [|? H']. inversion H'.
Qed.







(** ** Further properties of the commands *)

(** X1: with a usable session, joining a second time, with whatever
    randomness and whether or not the first answer was delivered, is
    answered that the player is already in the game and leaves the database
    as the first join left it. *)
Theorem join_twice_is_refused
    (s : Db) (author : str) (e1 e2 : nat -> byte) (d1 d2 : bool) :
  session_failed s = false ->
  join author e2 d2 (snd (join author e1 d1 s))
  = (ctx_send d2 AlreadyJoined, snd (join author e1 d1 s)).
Proof.
  intros Hf. destruct (find_player author s) as [p|] eqn:Hp.
  - assert (E : join author e1 d1 s = (ctx_send d1 AlreadyJoined, s))
      by (unfold join; now rewrite Hf, Hp).
    rewrite E. simpl. unfold join. now rewrite Hf, Hp.
  - assert (E : join author e1 d1 s
                = (ctx_send d1 (Joined (generate_otp_secret e1)),
                   mkDb (players s ++
                           [Player.mk (next_id (map Player.id (players s))) author
                              (Some 0%float) (generate_otp_secret e1)])
                        (games s) (game_players s) false))
      by (unfold join; now rewrite Hf, Hp).
    rewrite E. cbn [snd]. set (s1 := mkDb _ _ _ _).
    assert (Hp1 : find_player author s1
                  = Some (Player.mk (next_id (map Player.id (players s))) author
                            (Some 0%float) (generate_otp_secret e1)))
      by (unfold find_player; simpl; apply find_app_new; [exact Hp | reflexivity]).
    unfold join. cbn [session_failed s1]. now rewrite Hp1.
Qed.

Lemma join_twice_is_refused_witness :
  join alice bob_entropy true (snd (join alice alice_entropy false empty_db))
  = (AlreadyJoined, snd (join alice alice_entropy false empty_db)).
Proof.
  exact (join_twice_is_refused empty_db alice alice_entropy bob_entropy false true
           eq_refl).
Defined.

(** X2: with a usable session, for an identity that never joined, [balance],
    [deposit], [bet] and [win] all hand the request to join to [ctx.send]
    and change nothing; the wallet outcome plays no part and no game is
    created. *)
Theorem unregistered_author_is_turned_away (s : Db) (author : str) :
  session_failed s = false ->
  find_player author s = None ->
  (forall delivered, balance author delivered s = (ctx_send delivered NeedJoin, s)) /\
  (forall address amount otp_code rpc delivered,
     deposit author address amount otp_code rpc delivered s
     = (ctx_send delivered NeedJoin, s)) /\
  (forall amount otp_code now delivered,
     bet author amount otp_code now delivered s = (ctx_send delivered NeedJoin, s)) /\
  (forall delivered, win author delivered s = (ctx_send delivered NeedJoin, s)).
Proof.
  intros Hf H. unfold balance, deposit, bet, win. rewrite Hf, H. repeat split.
Qed.

Lemma unregistered_author_is_turned_away_witness :
  find_player bob db_alice = None /\
  bet bob 1 bob_code 0%Z true db_alice = (NeedJoin, db_alice).
Proof.
  split; [reflexivity|].
  exact (proj1 (proj2 (proj2 (unregistered_author_is_turned_away db_alice bob
                                eq_refl eq_refl))) 1%float bob_code 0%Z true).
Defined.

(** X3: a generated secret has 32 characters, two for each of the 16 bytes
    drawn, and every character is one of 0-9a-f. *)
Theorem secret_is_lowercase_hex (entropy : nat -> byte) :
  List.length (generate_otp_secret entropy) = 32%nat /\
  forallb is_hexdigit (generate_otp_secret entropy) = true.
Proof.
  unfold generate_otp_secret, token_hex. split.
  - rewrite hexlify_length. unfold token_bytes. now rewrite length_map, length_seq.
  - apply hexlify_hexdigits.
Qed.

(** X4: different random bytes give different secrets: two draws that
    differ in one of the 16 bytes give two secrets. *)
Theorem different_entropy_different_secret (e1 e2 : nat -> byte) (i : nat) :
  (i < 16)%nat -> e1 i <> e2 i ->
  generate_otp_secret e1 <> generate_otp_secret e2.
Proof.
  intros Hi Hne E. apply Hne. apply hexlify_inj in E. unfold token_bytes in E.
  assert (Hin : In i (seq 0 16)) by (apply in_seq; lia).
  revert Hin. generalize (seq 0 16) E. clear.
  induction l as [|k l IH]; simpl; intros E; [contradiction|].
  injection E as E1 E2. intros [-> | Hin]; auto.
Qed.

Lemma different_entropy_different_secret_witness :
  alice_entropy 0%nat <> bob_entropy 0%nat /\ alice_code <> bob_code.
Proof.
  assert (H : alice_entropy 0%nat <> bob_entropy 0%nat) by discriminate.
  split; [exact H|].
  exact (different_entropy_different_secret alice_entropy bob_entropy 0
           (Nat.lt_0_succ 15) H).
Defined.

(** X5: after every sequence of commands no two players share an identity
    and no two share a primary key: the unique column [discord_id] is never
    offered a duplicate. *)
Theorem identities_stay_unique (cs : list Command) :
  NoDup (map Player.discord_id (players (run empty_db cs))) /\
  NoDup (map Player.id (players (run empty_db cs))).
Proof.
  split.
  - apply (run_invariant (fun s => NoDup (map Player.discord_id (players s))));
      [exact effect_discord_ids_unique | constructor].
  - apply wf_players. now apply run_wf.
Qed.

(** X6: a player's record is permanent. Whatever commands follow, a
    registered identity stays registered with the same primary key and the
    same secret (only the balance can change), and the number of players
    never goes down. *)
Theorem player_record_is_permanent
    (s : Db) (cs : list Command) (author : str) (player : Player.t) :
  find_player author s = Some player ->
  (exists player',
     find_player author (run s cs) = Some player' /\
     Player.id player' = Player.id player /\
     Player.discord_id player' = Player.discord_id player /\
     Player.otp_secret player' = Player.otp_secret player) /\
  (List.length (players s) <= List.length (players (run s cs)))%nat.
Proof.
  intros Hp. split.
  - destruct (run_keeps_players cs s author player Hp) as [p' [Hp' Hsame]].
    exists p'. split; [exact Hp' | exact Hsame].
  - apply (run_relation
             (fun s s' => (List.length (players s) <= List.length (players s'))%nat)).
    + intros s0. apply Nat.le_refl.
    + intros s1 s2 s3. apply Nat.le_trans.
    + exact effect_players_grow.
Qed.

Lemma player_record_is_permanent_witness :
  find_player alice db_alice = Some (Player.mk 1 alice (Some 0%float) alice_code) /\
  exists player',
    find_player alice
      (run db_alice [Deposit alice addr 10 alice_code (RpcTxid tx) true;
                     Bet alice 4 alice_code 0%Z true; Win alice true])
      = Some player' /\
    Player.otp_secret player' = alice_code.
Proof.
  split; [reflexivity|].
  destruct (proj1 (player_record_is_permanent db_alice
                     [Deposit alice addr 10 alice_code (RpcTxid tx) true;
                      Bet alice 4 alice_code 0%Z true; Win alice true]
                     alice (Player.mk 1 alice (Some 0%float) alice_code) eq_refl))
    as [p' [Hp' [_ [_ Hsec]]]].
  exists p'. split; [exact Hp' | exact Hsec].
Defined.

(** X7: the secret shown at [join] is valid for good: with a usable
    session, for a fresh identity, after [join] and any further commands
    the player is found and the check of the stored secret against the
    shown one answers [true]. *)
Theorem issued_secret_stays_valid
    (s : Db) (cs : list Command) (author : str) (entropy : nat -> byte)
    (delivered : bool) :
  session_failed s = false ->
  find_player author s = None ->
  fst (join author entropy delivered s)
    = ctx_send delivered (Joined (generate_otp_secret entropy)) /\
  exists player,
    find_player author (run (snd (join author entropy delivered s)) cs)
      = Some player /\
    verify_otp (Player.otp_secret player) (generate_otp_secret entropy) = Ok true.
Proof.
  intros Hf Hfresh.
  assert (Hj : join author entropy delivered s
               = (ctx_send delivered (Joined (generate_otp_secret entropy)),
                  mkDb (players s ++
                          [Player.mk (next_id (map Player.id (players s))) author
                             (Some 0%float) (generate_otp_secret entropy)])
                       (games s) (game_players s) false))
    by (unfold join; now rewrite Hf, Hfresh).
  rewrite Hj. split; [reflexivity|]. cbn [snd].
  set (s1 := mkDb _ _ _ _).
  assert (Hp : find_player author s1
               = Some (Player.mk (next_id (map Player.id (players s))) author
                         (Some 0%float) (generate_otp_secret entropy)))
    by (unfold find_player; simpl; apply find_app_new; [exact Hfresh | reflexivity]).
  destruct (run_keeps_players cs s1 author _ Hp) as [p' [Hp' (_ & _ & Hsec)]].
  exists p'. split; [exact Hp'|]. rewrite Hsec. simpl.
  apply verify_otp_self. apply generate_otp_secret_isascii.
Qed.

Lemma issued_secret_stays_valid_witness :
  find_player bob db_alice = None /\
  exists player,
    find_player bob
      (run (snd (join bob bob_entropy true db_alice))
         [Deposit bob addr 3 bob_code (RpcTxid tx) true;
          Bet bob 3 bob_code 0%Z true])
    = Some player /\
    verify_otp (Player.otp_secret player) bob_code = Ok true.
Proof.
  split; [reflexivity|].
  exact (proj2 (issued_secret_stays_valid db_alice
                  [Deposit bob addr 3 bob_code (RpcTxid tx) true;
                   Bet bob 3 bob_code 0%Z true]
                  bob bob_entropy true eq_refl eq_refl)).
Defined.

(** X8: once a game exists it is the game for good: after any further
    commands the first game has the same primary key and the same creation
    time, and the number of games is what it was; no command closes the
    game or opens another. *)
Theorem game_is_never_replaced (s : Db) (cs : list Command) (game : Game.t) :
  first_game s = Some game ->
  exists game',
    first_game (run s cs) = Some game' /\
    Game.id game' = Game.id game /\
    Game.created_at game' = Game.created_at game /\
    List.length (games (run s cs)) = List.length (games s).
Proof. apply run_keeps_game. Qed.

Lemma game_is_never_replaced_witness :
  first_game (run empty_db (funded ++ [Bet alice 4 alice_code 7%Z true]))
    = Some (Game.mk 1 (Some 4%float) 7%Z) /\
  exists game',
    first_game (run (run empty_db (funded ++ [Bet alice 4 alice_code 7%Z true]))
                  [Win alice true; Bet bob 6 bob_code 9%Z true]) = Some game' /\
    Game.created_at game' = 7%Z.
Proof.
  split; [reflexivity|].
  destruct (game_is_never_replaced
              (run empty_db (funded ++ [Bet alice 4 alice_code 7%Z true]))
              [Win alice true; Bet bob 6 bob_code 9%Z true]
              (Game.mk 1 (Some 4%float) 7%Z) eq_refl)
    as [g' [Hg' [_ [Hat _]]]].
  exists g'. split; [exact Hg' | exact Hat].
Defined.

(** X9: starting from the empty database there is never more than one game,
    whatever the commands. *)
Theorem at_most_one_game (cs : list Command) :
  (List.length (games (run empty_db cs)) <= 1)%nat.
Proof.
  apply (run_invariant (fun s => (List.length (games s) <= 1)%nat));
    [exact effect_games_at_most_one | simpl; lia].
Qed.

Lemma bet_ok_has_bet (s : Db) (author : str) (amount : float) (otp_code : str)
    (now : Z) (delivered : bool) (a : float) (pot : column) :
  fst (bet author amount otp_code now delivered s) = BetOk a pot ->
  has_bet author (snd (bet author amount otp_code now delivered s)) = true.
Proof.
  intros Hok.
  pose proof (bet_effect author amount otp_code now delivered s) as E.
  rewrite Hok in E. remember (snd (bet author amount otp_code now delivered s)) as s'.
  inversion E as [ | | | | |? ? ? ? ? player b game s1 p Hf Hp Hv Hb Hge Hg Hpot Hrow|];
    subst; try discriminate.
  destruct (get_or_create_game_spec _ _ _ _ Hg) as (Hfirst & Hps & _ & _ & _).
  unfold has_bet, find_player, first_game. simpl. rewrite Hps.
  rewrite (find_set_balance _ _ _ (to_column (b - amount)) Hp).
  rewrite (first_game_set_pot s1 game _ Hfirst). simpl.
  unfold has_row. rewrite existsb_app. simpl. rewrite !Nat.eqb_refl. simpl.
  apply orb_true_r.
Qed.

(** A bet by a player who holds a row in the game stores no row and leaves
    the game as it is; with a usable session, a valid code, a sufficient
    balance and a pot that is a number, its commit is refused. *)
Lemma bet_with_row_refused (s : Db) (author : str) (amount : float)
    (otp_code : str) (now : Z) (delivered : bool) :
  has_bet author s = true ->
  (forall a pot, fst (bet author amount otp_code now delivered s) <> BetOk a pot) /\
  game_players (snd (bet author amount otp_code now delivered s)) = game_players s /\
  games (snd (bet author amount otp_code now delivered s)) = games s /\
  (forall player b p,
     session_failed s = false ->
     find_player author s = Some player ->
     verify_otp (Player.otp_secret player) otp_code = Ok true ->
     Player.balance player = Some b ->
     (amount <=? b)%float = true ->
     pot_of s = Some p ->
     bet author amount otp_code now delivered s
     = (Raised IntegrityError, fail_session s)).
Proof.
  unfold has_bet.
  destruct (find_player author s) as [player|] eqn:Hp; [|discriminate].
  destruct (first_game s) as [game|] eqn:Hg; [|discriminate].
  intros Hrow.
  assert (Hgoc : get_or_create_game now s = (game, s))
    by (unfold get_or_create_game; now rewrite Hg).
  assert (Hshape :
            (forall a pot,
               fst (bet author amount otp_code now delivered s) <> BetOk a pot) /\
            game_players (snd (bet author amount otp_code now delivered s))
              = game_players s /\
            games (snd (bet author amount otp_code now delivered s)) = games s).
  { pose proof (bet_effect author amount otp_code now delivered s) as E.
    remember (fst (bet author amount otp_code now delivered s)) as r.
    remember (snd (bet author amount otp_code now delivered s)) as s'.
    inversion E as
      [? ? Hq
      | | |? ? ? ? ? player1 b1 game1 s1 Hf1 Hp1 Hv1 Hb1 Hge1 Hg1 Hpot1
      |? ? ? ? ? player1 b1 game1 s1 p1 Hf1 Hp1 Hv1 Hb1 Hge1 Hg1 Hpot1 Hrow1
      |? ? ? ? ? player1 b1 game1 s1 p1 Hf1 Hp1 Hv1 Hb1 Hge1 Hg1 Hpot1 Hrow1|];
      subst.
    - repeat split. intros a pot E'. rewrite E' in Hq. discriminate.
    - assert (s1 = s) by congruence. subst s1. repeat split. discriminate.
    - assert (s1 = s) by congruence. subst s1. repeat split. discriminate.
    - assert (s1 = s /\ game1 = game /\ player1 = player) as (-> & -> & ->)
        by (repeat split; congruence).
      congruence. }
  destruct Hshape as (H1 & H2 & H3).
  split; [exact H1|]. split; [exact H2|]. split; [exact H3|].
  intros player' b p Hf Hp' Hv Hb Hge Hpot.
  assert (player' = player) by congruence. subst player'.
  assert (Hgp : Game.pot game = Some p)
    by (unfold pot_of in Hpot; now rewrite Hg in Hpot).
  unfold bet. rewrite Hf, Hp, Hv, Hb. simpl. rewrite Hge, Hgoc, Hgp. simpl.
  now rewrite Hrow.
Qed.

(** X10: a player bets at most once. After an accepted bet, whatever
    commands follow (wins included), a further bet by the same player is
    never accepted, stores no row and leaves the game and its pot as they
    are; when the session is usable, the code valid, the balance sufficient
    and the pot a number, its commit is refused with the integrity error of
    the second row (game_id, player_id), which leaves the session failed. *)
Theorem one_bet_per_player
    (s : Db) (author : str) (amount : float) (otp_code : str) (now : Z)
    (delivered : bool) (a : float) (pot : column)
    (cs : list Command) (amount' : float) (otp_code' : str) (now' : Z)
    (delivered' : bool) :
  fst (bet author amount otp_code now delivered s) = BetOk a pot ->
  (forall a' pot',
     fst (bet author amount' otp_code' now' delivered'
            (run (snd (bet author amount otp_code now delivered s)) cs))
     <> BetOk a' pot') /\
  game_players
    (snd (bet author amount' otp_code' now' delivered'
            (run (snd (bet author amount otp_code now delivered s)) cs)))
  = game_players (run (snd (bet author amount otp_code now delivered s)) cs) /\
  games
    (snd (bet author amount' otp_code' now' delivered'
            (run (snd (bet author amount otp_code now delivered s)) cs)))
  = games (run (snd (bet author amount otp_code now delivered s)) cs) /\
  (forall player b p,
     session_failed (run (snd (bet author amount otp_code now delivered s)) cs)
       = false ->
     find_player author (run (snd (bet author amount otp_code now delivered s)) cs)
       = Some player ->
     verify_otp (Player.otp_secret player) otp_code' = Ok true ->
     Player.balance player = Some b ->
     (amount' <=? b)%float = true ->
     pot_of (run (snd (bet author amount otp_code now delivered s)) cs) = Some p ->
     bet author amount' otp_code' now' delivered'
       (run (snd (bet author amount otp_code now delivered s)) cs)
     = (Raised IntegrityError,
        fail_session (run (snd (bet author amount otp_code now delivered s)) cs))).
Proof.
  intros Hok. apply bet_with_row_refused.
  apply run_keeps_bet.
  now apply (bet_ok_has_bet s author amount otp_code now delivered a pot).
Qed.

Lemma one_bet_per_player_witness :
  fst (bet alice 4 alice_code 0%Z true (run empty_db funded))
    = BetOk 4 (Some 4%float) /\
  bet alice 1 alice_code 5%Z true
    (run (snd (bet alice 4 alice_code 0%Z true (run empty_db funded)))
       [Bet bob 3 bob_code 1%Z true])
  = (Raised IntegrityError,
     fail_session
       (run (snd (bet alice 4 alice_code 0%Z true (run empty_db funded)))
          [Bet bob 3 bob_code 1%Z true])).
Proof.
  split; [reflexivity|].
  exact (proj2 (proj2 (proj2
           (one_bet_per_player (run empty_db funded) alice 4 alice_code 0%Z true
              4 (Some 4%float) [Bet bob 3 bob_code 1%Z true] 1 alice_code 5%Z true
              eq_refl)))
           (Player.mk 1 alice (Some 6%float) alice_code) 6%float 7%float
           eq_refl eq_refl eq_refl eq_refl eq_refl eq_refl).
Defined.

(** X11: a pot is paid once. Right after an accepted win the pot is 0, and a
    win by any identity is not accepted and changes nothing. *)
Theorem pot_is_paid_once
    (s : Db) (author other : str) (delivered delivered' : bool) (b : column) :
  fst (win author delivered s) = WinOk b ->
  snd (win other delivered' (snd (win author delivered s)))
    = snd (win author delivered s) /\
  (forall b', fst (win other delivered' (snd (win author delivered s))) <> WinOk b') /\
  pot_of (snd (win author delivered s)) = Some 0%float.
Proof.
  intros Hok.
  pose proof (win_effect author delivered s) as E.
  rewrite Hok in E. remember (snd (win author delivered s)) as s'.
  inversion E as [ | | | | | |? ? player b0 game p Hf Hp Hg Hpot Hpos Hb];
    subst; try discriminate.
  match goal with |- context [win other delivered' ?t] => set (s' := t) end.
  assert (Hg' : first_game s'
                = Some (Game.mk (Game.id game) (Some 0%float) (Game.created_at game)))
    by (unfold first_game; simpl; now apply first_game_set_pot).
  split; [|split].
  - unfold win. cbn [session_failed s'].
    destruct (find_player other s'); [|reflexivity]. now rewrite Hg'.
  - intros b'. unfold win. cbn [session_failed s'].
    destruct (find_player other s'); [|destruct delivered'; discriminate].
    rewrite Hg'. simpl. destruct delivered'; discriminate.
  - unfold pot_of. now rewrite Hg'.
Qed.

Lemma pot_is_paid_once_witness :
  fst (win alice true (run empty_db (funded ++ [Bet alice 4 alice_code 0%Z true])))
    = WinOk (Some 10%float) /\
  snd (win bob true
         (snd (win alice true
                 (run empty_db (funded ++ [Bet alice 4 alice_code 0%Z true])))))
  = snd (win alice true (run empty_db (funded ++ [Bet alice 4 alice_code 0%Z true]))).
Proof.
  split; [reflexivity|].
  exact (proj1 (pot_is_paid_once
                  (run empty_db (funded ++ [Bet alice 4 alice_code 0%Z true]))
                  alice bob true true (Some 10%float) eq_refl)).
Defined.

Lemma effect_no_write (s : Db) (c : Command) (r : Reply) (s' : Db) :
  effect s c r s' -> no_write_reply r = true -> s' = s.
Proof.
  intros H. destruct H; intros Hr; try reflexivity; try discriminate;
    destruct delivered; discriminate.
Qed.

(** X12: a command whose reply is a message of refusal, the answer of a
    command that only reads, [PendingRollbackError] or the exception of the
    wallet has left the database exactly as it was. *)
Theorem reply_without_write (s : Db) (c : Command) :
  no_write_reply (fst (step s c)) = true -> snd (step s c) = s.
Proof. apply (effect_no_write s c). apply step_effect. Qed.

Lemma reply_without_write_witness :
  no_write_reply
    (fst (step (run empty_db funded) (Bet alice 11 alice_code 0%Z true))) = true /\
  snd (step (run empty_db funded) (Bet alice 11 alice_code 0%Z true))
  = run empty_db funded.
Proof.
  split; [reflexivity|].
  exact (reply_without_write (run empty_db funded)
           (Bet alice 11 alice_code 0%Z true) eq_refl).
Defined.

Lemma stored_secret_isascii (cs : list Command) (author : str) (player : Player.t) :
  find_player author (run empty_db cs) = Some player ->
  isascii (Player.otp_secret player) = true.
Proof.
  intros Hp. apply find_player_In in Hp as [Hin _].
  assert (H : Forall (fun x => isascii x = true)
                (map Player.otp_secret (players (run empty_db cs))))
    by (apply (run_invariant
                 (fun s => Forall (fun x => isascii x = true)
                             (map Player.otp_secret (players s))));
        [exact effect_secrets_ascii | constructor]).
  rewrite Forall_forall in H. apply H. now apply in_map.
Qed.

(** X13: in every run from the empty database that left the session
    usable, a deposit or a bet with a code other than the player's stored
    secret changes nothing, whatever the wallet outcome: the answer is that
    the code is invalid when the code is ASCII, and [TypeError] is raised
    when it is not. *)
Theorem wrong_code_changes_nothing
    (cs : list Command) (author : str) (player : Player.t) (otp_code : str) :
  session_failed (run empty_db cs) = false ->
  find_player author (run empty_db cs) = Some player ->
  otp_code <> Player.otp_secret player ->
  (forall address amount rpc delivered,
     deposit author address amount otp_code rpc delivered (run empty_db cs)
     = (if isascii otp_code then ctx_send delivered InvalidOtp else Raised TypeError,
        run empty_db cs)) /\
  (forall amount now delivered,
     bet author amount otp_code now delivered (run empty_db cs)
     = (if isascii otp_code then ctx_send delivered InvalidOtp else Raised TypeError,
        run empty_db cs)).
Proof.
  intros Hf Hp Hne.
  pose proof (stored_secret_isascii cs author player Hp) as Hsec.
  assert (Hv : verify_otp (Player.otp_secret player) otp_code
               = if isascii otp_code then Ok false else Raise TypeError).
  { unfold verify_otp, compare_digest. rewrite Hsec. simpl.
    destruct (isascii otp_code); [|reflexivity].
    f_equal. apply str_eqb_neq. congruence. }
  split; intros; [unfold deposit | unfold bet]; rewrite Hf, Hp, Hv;
    now destruct (isascii otp_code).
Qed.

Lemma wrong_code_changes_nothing_witness :
  find_player alice (run empty_db funded)
    = Some (Player.mk 1 alice (Some 10%float) alice_code) /\
  bob_code <> alice_code /\
  bet alice 4 bob_code 0%Z true (run empty_db funded)
  = (InvalidOtp, run empty_db funded).
Proof.
  assert (H : bob_code <> alice_code) by discriminate.
  split; [reflexivity|]. split; [exact H|].
  exact (proj2 (wrong_code_changes_nothing funded alice
                  (Player.mk 1 alice (Some 10%float) alice_code) bob_code
                  eq_refl eq_refl H) 4%float 0%Z true).
Defined.

(** X14: a deposit touches one balance only: in a database that respects its
    primary keys, the balance of every other identity, the games and the
    contribution rows are what they were, whether the deposit succeeds or
    not. *)
Theorem deposit_touches_one_balance
    (s : Db) (author other address otp_code : str) (amount : float)
    (rpc : RpcResult) (delivered : bool) :
  wf s = true ->
  other <> author ->
  balance_of other (snd (deposit author address amount otp_code rpc delivered s))
    = balance_of other s /\
  games (snd (deposit author address amount otp_code rpc delivered s)) = games s /\
  game_players (snd (deposit author address amount otp_code rpc delivered s))
    = game_players s.
Proof.
  intros Hwf Hne.
  pose proof (deposit_effect author address amount otp_code rpc delivered s) as E.
  remember (fst (deposit author address amount otp_code rpc delivered s)) as r.
  remember (snd (deposit author address amount otp_code rpc delivered s)) as s'.
  inversion E as [|? ? ?|? ? ? ? ? ? player b Hf Hp Hv Hb| | | |]; subst.
  - repeat split.
  - cbn [games game_players]. split; [|split; reflexivity].
    now apply (balance_of_other s author other player).
Qed.

Lemma deposit_touches_one_balance_witness :
  wf (run empty_db funded) = true /\
  bob <> alice /\
  balance_of bob
    (snd (deposit alice addr 7 alice_code (RpcTxid tx) true (run empty_db funded)))
  = balance_of bob (run empty_db funded).
Proof.
  assert (H : bob <> alice) by discriminate.
  split; [reflexivity|]. split; [exact H|].
  exact (proj1 (deposit_touches_one_balance (run empty_db funded) alice bob addr
                  alice_code 7 (RpcTxid tx) true eq_refl H)).
Defined.

Lemma firstn_incl {A : Type} (n : nat) (l : list A) : incl (firstn n l) l.
Proof.
  intros x Hx. rewrite <- (firstn_skipn n l). apply in_or_app. now left.
Qed.

(** X16: the leaderboard and the audit report agree. With a usable session
    both are handed to [ctx.send]; every leaderboard row is a row of the
    audit report, with the same identity and balance, and when there are at
    most 10 players the leaderboard is the audit report reordered. *)
Theorem stats_rows_are_audit_rows (s : Db) (delivered : bool) :
  (session_failed s = false ->
   fst (stats delivered s) = ctx_send delivered (TopPlayers (map row_of (top_players s))) /\
   fst (audit delivered s) = ctx_send delivered (AuditReport (map row_of (players s)))) /\
  incl (map row_of (top_players s)) (map row_of (players s)) /\
  ((List.length (players s) <= 10)%nat ->
   Permutation (map row_of (top_players s)) (map row_of (players s))).
Proof.
  pose proof (order_by_balance_desc_perm (players s)) as Hperm.
  split; [|split].
  - intros Hf. unfold stats, audit. rewrite Hf. split; reflexivity.
  - intros r Hr. apply in_map_iff in Hr as [p [<- Hp]]. apply in_map.
    apply (Permutation_in _ Hperm). now apply (firstn_incl 10).
  - intros Hlen. apply Permutation_map. unfold top_players.
    rewrite firstn_all2; [exact Hperm|].
    now rewrite (Permutation_length Hperm).
Qed.

Lemma stats_rows_are_audit_rows_witness :
  (List.length (players (run empty_db funded)) <= 10)%nat /\
  Permutation (map row_of (top_players (run empty_db funded)))
    (map row_of (players (run empty_db funded))).
Proof.
  assert (H : (List.length (players (run empty_db funded)) <= 10)%nat)
    by (vm_compute; repeat constructor).
  split; [exact H|].
  exact (proj2 (proj2 (stats_rows_are_audit_rows (run empty_db funded) true)) H).
Defined.

(** X17: the first row of the leaderboard is a player of greatest balance:
    [ORDER BY] puts no player's balance above it. *)
Theorem leaderboard_starts_with_greatest_balance
    (s : Db) (first : Player.t) (rest : list Player.t) (p : Player.t) :
  top_players s = first :: rest ->
  In p (players s) ->
  sql_ltb (Player.balance first) (Player.balance p) = false.
Proof.
  unfold top_players. intros Htop Hp.
  pose proof (order_by_balance_desc_perm (players s)) as Hperm.
  pose proof (order_by_balance_desc_sorted (players s)) as Hsorted.
  apply (Permutation_in _ (Permutation_sym Hperm)) in Hp.
  destruct (order_by_balance_desc (players s)) as [|q l]; [contradiction|].
  simpl in Htop. injection Htop as -> _.
  inversion Hsorted as [|? ? _ Hall]; subst.
  destruct Hp as [-> | Hp]; [apply sql_ltb_irrefl|].
  rewrite Forall_forall in Hall. now apply Hall.
Qed.

Lemma leaderboard_starts_with_greatest_balance_witness :
  top_players (run empty_db (funded ++ [Bet alice 4 alice_code 0%Z true]))
    = [Player.mk 2 bob (Some 10%float) bob_code;
       Player.mk 1 alice (Some 6%float) alice_code] /\
  In (Player.mk 1 alice (Some 6%float) alice_code)
    (players (run empty_db (funded ++ [Bet alice 4 alice_code 0%Z true]))) /\
  sql_ltb (Some 10%float) (Some 6%float) = false.
Proof.
  assert (Hin : In (Player.mk 1 alice (Some 6%float) alice_code)
                  (players (run empty_db (funded ++ [Bet alice 4 alice_code 0%Z true]))))
    by (left; reflexivity).
  split; [reflexivity|]. split; [exact Hin|].
  exact (leaderboard_starts_with_greatest_balance
           (run empty_db (funded ++ [Bet alice 4 alice_code 0%Z true]))
           (Player.mk 2 bob (Some 10%float) bob_code)
           [Player.mk 1 alice (Some 6%float) alice_code]
           (Player.mk 1 alice (Some 6%float) alice_code) eq_refl Hin).
Defined.

(** X18: a player may bet the whole balance: with a usable session, a valid
    code, a finite balance, a pot that is a number and no earlier row, a
    bet of exactly the balance is accepted (the guard is
    balance >= amount) and leaves a balance of zero. *)
Theorem bet_of_whole_balance_accepted
    (s : Db) (author otp_code : str) (player : Player.t) (b p : float) (now : Z)
    (delivered : bool) :
  session_failed s = false ->
  find_player author s = Some player ->
  verify_otp (Player.otp_secret player) otp_code = Ok true ->
  Player.balance player = Some b ->
  is_finite b = true ->
  pot_of s = Some p ->
  has_row (Game.id (fst (get_or_create_game now s))) (Player.id player)
    (game_players s) = false ->
  fst (bet author b otp_code now delivered s)
    = ctx_send delivered (BetOk b (to_column (p + b))) /\
  balance_of author (snd (bet author b otp_code now delivered s))
    = Some (Some 0%float).
Proof.
  intros Hf Hp Hv Hb Hfin Hpot Hrow.
  assert (Hge : (b <=? b)%float = true)
    by now apply float_leb_refl, is_finite_not_nan.
  destruct (bet_accepted s author otp_code player b p b now delivered
              Hf Hp Hv Hb Hge Hpot Hrow) as (H1 & H2 & _).
  split; [exact H1|]. rewrite H2, (float_sub_self b Hfin). reflexivity.
Qed.

Lemma bet_of_whole_balance_accepted_witness :
  is_finite 10%float = true /\
  fst (bet alice 10 alice_code 0%Z true (run empty_db funded))
    = BetOk 10 (to_column (0 + 10)) /\
  balance_of alice (snd (bet alice 10 alice_code 0%Z true (run empty_db funded)))
    = Some (Some 0%float).
Proof.
  split; [reflexivity|].
  exact (bet_of_whole_balance_accepted (run empty_db funded) alice alice_code
           (Player.mk 1 alice (Some 10%float) alice_code) 10%float 0%float 0%Z true
           eq_refl eq_refl eq_refl eq_refl eq_refl eq_refl eq_refl).
Defined.

(** X19: contribution rows are only ever appended: after any commands the
    rows that were there are still there, unchanged and in the same order,
    in front of the new ones. No command, [win] included, removes or edits a
    row. *)
Theorem contribution_rows_are_append_only (s : Db) (cs : list Command) :
  exists extra, game_players (run s cs) = game_players s ++ extra.
Proof. apply run_rows_extend. Qed.

(** X20: the contribution rows stay consistent with the other tables: after
    every sequence of commands from the empty database no two rows share
    the key (game, player), and every row refers to a stored player and a
    stored game. *)
Theorem contribution_rows_are_consistent (cs : list Command) :
  NoDup (map row_key (game_players (run empty_db cs))) /\
  (forall r, In r (game_players (run empty_db cs)) ->
     (exists p, In p (players (run empty_db cs)) /\
                Player.id p = GamePlayer.player_id r) /\
     (exists g, In g (games (run empty_db cs)) /\
                Game.id g = GamePlayer.game_id r)).
Proof.
  destruct (run_invariant rows_consistent effect_rows_consistent cs empty_db)
    as [Hnd Hfk]; [split; constructor|].
  split; [exact Hnd|]. intros r Hr. rewrite Forall_forall in Hfk.
  destruct (Hfk r Hr) as [H1 H2].
  apply in_map_iff in H1 as [p [E1 Hp]]. apply in_map_iff in H2 as [g [E2 Hg]].
  split; [exists p | exists g]; auto.
Qed.

Lemma contribution_rows_are_consistent_witness :
  In (GamePlayer.mk 1 1 (Some 4%float))
    (game_players (run empty_db (funded ++ [Bet alice 4 alice_code 0%Z true]))) /\
  exists p,
    In p (players (run empty_db (funded ++ [Bet alice 4 alice_code 0%Z true]))) /\
    Player.id p = 1%nat.
Proof.
  assert (H : In (GamePlayer.mk 1 1 (Some 4%float))
                (game_players
                   (run empty_db (funded ++ [Bet alice 4 alice_code 0%Z true]))))
    by (left; reflexivity).
  split; [exact H|].
  exact (proj1 (proj2 (contribution_rows_are_consistent
                         (funded ++ [Bet alice 4 alice_code 0%Z true])) _ H)).
Defined.

(** X21: the first accepted bet opens the game. When no game and no row
    exist, an accepted bet leaves exactly one game, created with the clock
    of that bet and holding the bet as its pot, and exactly one contribution
    row, for the bettor and the amount as the column stores it: the amount
    itself unless it is a zero. *)
Theorem first_bet_opens_game
    (s : Db) (author otp_code : str) (amount : float) (now : Z) (delivered : bool)
    (a : float) (pot : column) :
  games s = [] ->
  game_players s = [] ->
  fst (bet author amount otp_code now delivered s) = BetOk a pot ->
  games (snd (bet author amount otp_code now delivered s))
    = [Game.mk 1 (Some (0 + amount)%float) now] /\
  (exists player,
     find_player author s = Some player /\
     game_players (snd (bet author amount otp_code now delivered s))
     = [GamePlayer.mk 1 (Player.id player) (to_column amount)]) /\
  (PrimFloat.is_zero amount = false -> to_column amount = Some amount).
Proof.
  intros Hgs Hrs Hok.
  pose proof (bet_effect author amount otp_code now delivered s) as E.
  rewrite Hok in E. remember (snd (bet author amount otp_code now delivered s)) as s'.
  inversion E as [ | | | | |? ? ? ? ? player b game s1 p Hf Hp Hv Hb Hge Hg Hpot Hrow|];
    subst; try discriminate.
  destruct (float_leb_not_nan _ _ Hge) as [Hnan _].
  destruct (get_or_create_game_spec _ _ _ _ Hg)
    as (Hfirst & _ & Hrows & _ & [[Hfirst0 _] | (_ & -> & Hg1)]).
  - unfold first_game in Hfirst0. rewrite Hgs in Hfirst0. discriminate.
  - simpl in Hpot. injection Hpot as <-.
    cbn [games game_players Game.id]. rewrite Hg1, Hrows, Hrs. simpl.
    rewrite (to_column_zero_add amount Hnan).
    split; [reflexivity|]. split; [now exists player|].
    now apply to_column_nonzero.
Qed.

Lemma first_bet_opens_game_witness :
  games (run empty_db funded) = [] /\
  game_players (run empty_db funded) = [] /\
  fst (bet bob 6 bob_code 3%Z true (run empty_db funded)) = BetOk 6 (Some 6%float) /\
  games (snd (bet bob 6 bob_code 3%Z true (run empty_db funded)))
    = [Game.mk 1 (Some (0 + 6)%float) 3%Z].
Proof.
  split; [reflexivity|]. split; [reflexivity|]. split; [reflexivity|].
  exact (proj1 (first_bet_opens_game (run empty_db funded) bob bob_code 6 3%Z true
                  6 (Some 6%float) eq_refl eq_refl eq_refl)).
Defined.

(** X22: a refused commit disables the bot for good. The code never rolls
    the session back: once a commit was refused, every command raises
    [PendingRollbackError] and changes nothing, whatever it is and however
    many follow. *)
Theorem refused_commit_disables_every_command (s : Db) (cs : list Command) :
  session_failed s = true ->
  (forall c, step s c = (Raised PendingRollbackError, s)) /\
  run s cs = s.
Proof.
  intros Hf.
  assert (Hstep : forall c, step s c = (Raised PendingRollbackError, s)).
  { intros c. destruct c; simpl;
      unfold join, balance, deposit, bet, win, stats, audit; now rewrite Hf. }
  split; [exact Hstep|].
  induction cs as [|c cs IH]; [reflexivity|].
  rewrite run_cons, Hstep. exact IH.
Qed.

Lemma refused_commit_disables_every_command_witness :
  session_failed (run empty_db refused) = true /\
  step (run empty_db refused) (Balance bob true)
  = (Raised PendingRollbackError, run empty_db refused).
Proof.
  split; [reflexivity|].
  exact (proj1 (refused_commit_disables_every_command (run empty_db refused) []
                  eq_refl) (Balance bob true)).
Defined.



(** X24: what a command writes does not depend on whether its answer was
    delivered: the commit comes before [ctx.send], so an exception of
    [ctx.send] undoes nothing. *)
Theorem delivery_does_not_change_the_write (s : Db) (c : Command) (delivered : bool) :
  snd (step s (with_delivery delivered c)) = snd (step s c).
Proof.
  destruct c as [a e d|a d|a ad amt code rpc d|a amt code now d|a d|d|d]; simpl.
  - unfold join. destruct (session_failed s); [reflexivity|].
    now destruct (find_player a s).
  - unfold balance. destruct (session_failed s); [reflexivity|].
    now destruct (find_player a s).
  - unfold deposit. destruct (session_failed s); [reflexivity|].
    destruct (find_player a s) as [p|]; [|reflexivity].
    destruct (verify_otp (Player.otp_secret p) code) as [[|]|]; try reflexivity.
    destruct rpc; try reflexivity.
    now destruct (py_add (Player.balance p) amt).
  - unfold bet. destruct (session_failed s); [reflexivity|].
    destruct (find_player a s) as [p|]; [|reflexivity].
    destruct (verify_otp (Player.otp_secret p) code) as [[|]|]; try reflexivity.
    destruct (py_ge (Player.balance p) amt) as [[|]|]; try reflexivity.
    destruct (get_or_create_game now s) as [g s1].
    destruct (py_sub (Player.balance p) amt); [|reflexivity].
    destruct (py_add (Game.pot g) amt); [|reflexivity].
    now destruct (has_row (Game.id g) (Player.id p) (game_players s1)).
  - unfold win. destruct (session_failed s); [reflexivity|].
    destruct (find_player a s) as [p|]; [|reflexivity].
    destruct (first_game s) as [g|]; [|reflexivity].
    destruct (Game.pot g) as [pot|]; [|reflexivity].
    destruct (0 <? pot)%float; [|reflexivity].
    now destruct (py_add (Player.balance p) pot).
  - unfold stats. now destruct (session_failed s).
  - unfold audit. now destruct (session_failed s).
Qed.
